(** * Sophia: retry wrapper, JSON clean-up, image fallback chain, favorites

    A shallow embedding of the client-side logic of the Sophia quote
    application, and the properties its description states.

    - [services/geminiService.ts]: [withRetry], [cleanJsonString],
      [getAiClient], [fetchPexelsImage], [getRandomFallbackImage],
      [generateQuoteImage].  The repository keeps two copies of this file:
      one whose [generateQuoteImage] falls back on the Pexels stock-photo
      client and then on a static image (module [PexelsChain]), one that
      uses the Imagen API and falls back on a static image only (module
      [ImagenOnly]).  What the copies share is identical in both.
    - [App.tsx]: [handleApiError], [toggleFavorite], [isQuoteFavorite]
      (module [App]).

    Conventions of the embedding.

    - A JavaScript string is the list of its UTF-16 code units
      ([jsstring]); [js] turns a literal written in this file (UTF-8) into
      that list.
    - [undefined] and [null] are [None].
    - A promise that settles, or a call that returns or throws, is an
      [Outcome]: [Fulfilled v] or [Rejected e].
    - A thrown value ([Thrown]) is [null] or [undefined], on which every
      property read raises a [TypeError], or any other value, read through
      the three properties the code inspects: [message], [code], [status].
    - The errors the language raises itself ([JSON.parse] on a malformed
      text, a property read on [null]) are error objects whose message is
      the engine's choice ([Engine]).
    - An asynchronous operation handed to [withRetry] is the script of its
      attempts: [operation k] is how the [k]-th invocation (counted from 0)
      settles.  Every invocation is assumed to settle.
    - A JavaScript number that counts (the retry budget, a delay in
      milliseconds) is an integer; the value of [Math.random()] is a double,
      given by its significand and exponent.
    - Console output is not modelled. *)

From Stdlib Require Import ZArith NArith List String Ascii Bool Lia Sorted.
From Equations Require Import Equations.
Import ListNotations.

Set Implicit Arguments.

(** ** JavaScript strings *)

Module JsString.

Definition jsstring := list N.

(** UTF-8 bytes of a literal to UTF-16 code units (one-, two- and
    three-byte sequences, which cover every literal of the sources). *)
Fixpoint utf8_decode (bs : list N) : jsstring :=
  match bs with
  | [] => []
  | b0 :: r0 =>
      if (b0 <? 128)%N then b0 :: utf8_decode r0
      else match r0 with
           | [] => []
           | b1 :: r1 =>
               if (b0 <? 224)%N
               then ((b0 mod 32) * 64 + b1 mod 64)%N :: utf8_decode r1
               else match r1 with
                    | [] => []
                    | b2 :: r2 =>
                        ((b0 mod 16) * 4096 + (b1 mod 64) * 64 + b2 mod 64)%N
                          :: utf8_decode r2
                    end
           end
  end.

Definition js (s : string) : jsstring :=
  utf8_decode (map N_of_ascii (list_ascii_of_string s)).

Definition jsstring_eqb (a b : jsstring) : bool :=
  if list_eq_dec N.eq_dec a b then true else false.

(** [s.startsWith(p)] *)
Fixpoint startsWith (s p : jsstring) {struct p} : bool :=
  match p with
  | [] => true
  | c :: p' =>
      match s with
      | [] => false
      | d :: s' => (c =? d)%N && startsWith s' p'
      end
  end.

(** [s.includes(p)] *)
Fixpoint includes (s p : jsstring) {struct s} : bool :=
  startsWith s p ||
  match s with
  | [] => false
  | _ :: s' => includes s' p
  end.

(** [s.endsWith(p)] *)
Definition endsWith (s p : jsstring) : bool :=
  startsWith (rev s) (rev p).

(** A string used as a condition: only the empty string is falsy. *)
Definition truthy (s : jsstring) : bool :=
  match s with [] => false | _ :: _ => true end.

(** An optional string used as a condition ([undefined], [null] and the
    empty string are falsy). *)
Definition truthy_opt (s : option jsstring) : bool :=
  match s with None => false | Some s => truthy s end.

(** WhiteSpace and LineTerminator code units, the ones [trim] removes. *)
Definition isWhiteSpace (c : N) : bool :=
  ((9 <=? c) && (c <=? 13)           (* TAB, LF, VT, FF, CR *)
   || (c =? 32) || (c =? 160)        (* SPACE, NBSP *)
   || (c =? 5760)                    (* U+1680 *)
   || ((8192 <=? c) && (c <=? 8202)) (* U+2000 .. U+200A *)
   || (c =? 8232) || (c =? 8233)     (* LS, PS *)
   || (c =? 8239) || (c =? 8287)     (* U+202F, U+205F *)
   || (c =? 12288) || (c =? 65279)   (* U+3000, BOM *)
  )%N.

Fixpoint trimStart (s : jsstring) : jsstring :=
  match s with
  | [] => []
  | c :: s' => if isWhiteSpace c then trimStart s' else s
  end.

Definition allWhiteSpace (s : jsstring) : bool := forallb isWhiteSpace s.

Definition trimEnd (s : jsstring) : jsstring := rev (trimStart (rev s)).

(** [s.trim()] *)
Definition trim (s : jsstring) : jsstring := trimEnd (trimStart s).

(** [s.replace(/^p/, "")] for a literal [p]: drop the prefix [p] when the
    string starts with it. *)
Definition removePrefix (p s : jsstring) : jsstring :=
  if startsWith s p then skipn (List.length p) s else s.

(** [s.replace(/p$/, "")] for a literal [p]: without the [m] flag [$] only
    matches at the end of the input, so the suffix [p] is dropped when the
    string ends with it. *)
Definition removeSuffix (p s : jsstring) : jsstring :=
  if endsWith s p then firstn (List.length s - List.length p) s else s.

End JsString.
Import JsString.

(** ** Thrown values and settled promises *)

Record JsError := mkError {
  message : option jsstring;  (* error.message, when it is a string *)
  code    : option Z;         (* error.code, when it is a number *)
  status  : option jsstring   (* error.status, when it is a string *)
}.

(** [new Error(msg)] *)
Definition Error_ (msg : jsstring) : JsError :=
  {| message := Some msg; code := None; status := None |}.

(** What a [throw] throws, a promise rejects with and a [catch] clause
    binds.  JavaScript lets any value be thrown: [null] and [undefined]
    have no properties (reading one raises a [TypeError]; the optional
    chain [error?.message] gives [undefined]); every other value is read
    through its properties. *)
Inductive Thrown : Type :=
| Nullish
| ErrorObject (e : JsError).

Coercion ErrorObject : JsError >-> Thrown.

(** [error?.message], [error?.code], [error?.status] *)
Definition messageOf (error : Thrown) : option jsstring :=
  match error with
  | Nullish => None
  | ErrorObject e => message e
  end.

Definition codeOf (error : Thrown) : option Z :=
  match error with
  | Nullish => None
  | ErrorObject e => code e
  end.

Definition statusOf (error : Thrown) : option jsstring :=
  match error with
  | Nullish => None
  | ErrorObject e => status e
  end.

(** The places where the language itself raises an error in this code. *)
Inductive Fault : Type :=
| MalformedJson (text : jsstring)      (* JSON.parse(text): SyntaxError *)
| ReadOfNullish (property : jsstring)  (* value.property on null or
                                          undefined: TypeError *)
| NotAFunction (property : jsstring).  (* value.property(...) when the
                                          property is no function:
                                          TypeError *)

(** The message the engine gives the error it raises for a fault.  The
    wording is the engine's own (it may quote the offending text), so it
    is a parameter of every run. *)
Definition Engine := Fault -> jsstring.

(** The error object raised for a fault: a [SyntaxError] or [TypeError],
    with the engine's message and no [code] or [status]. *)
Definition raised (engine : Engine) (fault : Fault) : JsError :=
  Error_ (engine fault).

Inductive Outcome (T : Type) : Type :=
| Fulfilled (v : T)
| Rejected (e : Thrown).
Arguments Fulfilled {T} v.
Arguments Rejected {T} e.

(** ** [JSON.parse]

    The built-in parser, written after the JSON grammar (ECMA-404): a
    scanner that turns the code units into tokens, one state transition per
    code unit, and a parser over the tokens.  [None] stands for the
    [SyntaxError] the built-in throws.  A number keeps its source text, so
    two values that are equal here are the same JavaScript value. *)

Module Json.

#[warnings="-register-all"]
Inductive json : Type :=
| JNull
| JBool (b : bool)
| JNumber (lexeme : jsstring)
| JString (s : jsstring)
| JArray (items : list json)
| JObject (members : list (jsstring * json)).

Inductive token : Type :=
| TLBrace | TRBrace | TLBracket | TRBracket | TColon | TComma
| TString (s : jsstring)
| TNumber (lexeme : jsstring)
| TTrue | TFalse | TNull.

(** Where the scanner is inside a number: after the minus sign, after a
    leading zero, in the integer digits, after the decimal point, in the
    fraction digits, after the exponent mark, after the exponent sign, in
    the exponent digits. *)
Inductive numstate : Type :=
| NMinus | NZero | NInt | NPoint | NFrac | NExpMark | NExpSign | NExp.

(** The three literal names. *)
Inductive literal : Type := LitTrue | LitFalse | LitNull.

Definition literalText (lit : literal) : jsstring :=
  match lit with
  | LitTrue => js "true"
  | LitFalse => js "false"
  | LitNull => js "null"
  end.

Definition literalToken (lit : literal) : token :=
  match lit with
  | LitTrue => TTrue
  | LitFalse => TFalse
  | LitNull => TNull
  end.

Inductive lexstate : Type :=
| LStart                                        (* between two tokens *)
| LString (acc : jsstring)                      (* in a string; [acc] reversed *)
| LEscape (acc : jsstring)                      (* after a backslash *)
| LUnicode (acc : jsstring) (todo : nat) (v : N)  (* in the digits of \uXXXX *)
| LNumber (ns : numstate) (acc : jsstring)      (* in a number; [acc] reversed *)
| LLiteral (lit : literal) (seen : nat).         (* in true, false or null *)

(** The four JSON white-space characters. *)
Definition isJsonWs (c : N) : bool :=
  ((c =? 9) || (c =? 10) || (c =? 13) || (c =? 32))%N.

Definition isDigit (c : N) : bool := ((48 <=? c) && (c <=? 57))%N.

Definition isDigit19 (c : N) : bool := ((49 <=? c) && (c <=? 57))%N.

Definition isExpMark (c : N) : bool := ((c =? 101) || (c =? 69))%N.

Definition hexValue (c : N) : option N :=
  if ((48 <=? c) && (c <=? 57))%N then Some (c - 48)%N
  else if ((97 <=? c) && (c <=? 102))%N then Some (c - 87)%N
  else if ((65 <=? c) && (c <=? 70))%N then Some (c - 55)%N
  else None.

(** A number may end in these states. *)
Definition numAccepting (ns : numstate) : bool :=
  match ns with
  | NZero | NInt | NFrac | NExp => true
  | NMinus | NPoint | NExpMark | NExpSign => false
  end.

(** The next state inside a number, or [None] when [c] does not continue
    the number. *)
Definition numStep (ns : numstate) (c : N) : option numstate :=
  match ns with
  | NMinus =>
      if (c =? 48)%N then Some NZero
      else if isDigit19 c then Some NInt else None
  | NZero =>
      if (c =? 46)%N then Some NPoint
      else if isExpMark c then Some NExpMark else None
  | NInt =>
      if isDigit c then Some NInt
      else if (c =? 46)%N then Some NPoint
      else if isExpMark c then Some NExpMark else None
  | NPoint => if isDigit c then Some NFrac else None
  | NFrac =>
      if isDigit c then Some NFrac
      else if isExpMark c then Some NExpMark else None
  | NExpMark =>
      if ((c =? 43) || (c =? 45))%N then Some NExpSign
      else if isDigit c then Some NExp else None
  | NExpSign => if isDigit c then Some NExp else None
  | NExp => if isDigit c then Some NExp else None
  end.

(** One code unit read between two tokens. *)
Definition stepStart (c : N) : option (lexstate * list token) :=
  if isJsonWs c then Some (LStart, [])
  else if (c =? 123)%N then Some (LStart, [TLBrace])
  else if (c =? 125)%N then Some (LStart, [TRBrace])
  else if (c =? 91)%N then Some (LStart, [TLBracket])
  else if (c =? 93)%N then Some (LStart, [TRBracket])
  else if (c =? 58)%N then Some (LStart, [TColon])
  else if (c =? 44)%N then Some (LStart, [TComma])
  else if (c =? 34)%N then Some (LString [], [])
  else if (c =? 45)%N then Some (LNumber NMinus [c], [])
  else if (c =? 48)%N then Some (LNumber NZero [c], [])
  else if isDigit19 c then Some (LNumber NInt [c], [])
  else if (c =? 116)%N then Some (LLiteral LitTrue 1, [])
  else if (c =? 102)%N then Some (LLiteral LitFalse 1, [])
  else if (c =? 110)%N then Some (LLiteral LitNull 1, [])
  else None.

(** The character an escape sequence stands for. *)
Definition escapeChar (c : N) : option N :=
  if (c =? 34)%N then Some 34%N          (* quotation mark *)
  else if (c =? 92)%N then Some 92%N     (* reverse solidus *)
  else if (c =? 47)%N then Some 47%N     (* solidus *)
  else if (c =? 98)%N then Some 8%N      (* b *)
  else if (c =? 102)%N then Some 12%N    (* f *)
  else if (c =? 110)%N then Some 10%N    (* n *)
  else if (c =? 114)%N then Some 13%N    (* r *)
  else if (c =? 116)%N then Some 9%N     (* t *)
  else None.

(** One code unit read in state [st]: the next state and the tokens that
    were completed. *)
Definition step (st : lexstate) (c : N) : option (lexstate * list token) :=
  match st with
  | LStart => stepStart c
  | LString acc =>
      if (c =? 34)%N then Some (LStart, [TString (rev acc)])
      else if (c =? 92)%N then Some (LEscape acc, [])
      else if (c <? 32)%N then None
      else Some (LString (c :: acc), [])
  | LEscape acc =>
      if (c =? 117)%N then Some (LUnicode acc 4 0%N, [])
      else match escapeChar c with
           | Some d => Some (LString (d :: acc), [])
           | None => None
           end
  | LUnicode acc todo v =>
      match hexValue c with
      | None => None
      | Some h =>
          match todo with
          | O => None
          | S O => Some (LString ((v * 16 + h)%N :: acc), [])
          | S todo' => Some (LUnicode acc todo' (v * 16 + h)%N, [])
          end
      end
  | LNumber ns acc =>
      match numStep ns c with
      | Some ns' => Some (LNumber ns' (c :: acc), [])
      | None =>
          if numAccepting ns
          then match stepStart c with
               | Some (st', out) => Some (st', TNumber (rev acc) :: out)
               | None => None
               end
          else None
      end
  | LLiteral lit seen =>
      match nth_error (literalText lit) seen with
      | None => None
      | Some e =>
          if (c =? e)%N
          then if Nat.eqb (S seen) (List.length (literalText lit))
               then Some (LStart, [literalToken lit])
               else Some (LLiteral lit (S seen), [])
          else None
      end
  end.

(** The end of the input in state [st]. *)
Definition finish (st : lexstate) : option (list token) :=
  match st with
  | LStart => Some []
  | LNumber ns acc =>
      if numAccepting ns then Some [TNumber (rev acc)] else None
  | _ => None
  end.

Fixpoint scan (st : lexstate) (s : jsstring) : option (list token) :=
  match s with
  | [] => finish st
  | c :: s' =>
      match step st c with
      | None => None
      | Some (st', out) =>
          match scan st' s' with
          | None => None
          | Some ts => Some (out ++ ts)
          end
      end
  end.

Definition tokens (s : jsstring) : option (list token) := scan LStart s.

(** Recursive descent over the tokens.  Every level of nesting consumes a
    token, so a fuel of one more than the number of tokens is never
    exhausted on a well-formed input. *)
Fixpoint parseValue (fuel : nat) (ts : list token)
  : option (json * list token) :=
  match fuel with
  | O => None
  | S fuel' =>
      match ts with
      | TString s :: r => Some (JString s, r)
      | TNumber n :: r => Some (JNumber n, r)
      | TTrue :: r => Some (JBool true, r)
      | TFalse :: r => Some (JBool false, r)
      | TNull :: r => Some (JNull, r)
      | TLBracket :: TRBracket :: r => Some (JArray [], r)
      | TLBracket :: r =>
          match parseElements fuel' r with
          | Some (vs, r') => Some (JArray vs, r')
          | None => None
          end
      | TLBrace :: TRBrace :: r => Some (JObject [], r)
      | TLBrace :: r =>
          match parseMembers fuel' r with
          | Some (ms, r') => Some (JObject ms, r')
          | None => None
          end
      | _ => None
      end
  end

with parseElements (fuel : nat) (ts : list token)
  : option (list json * list token) :=
  match fuel with
  | O => None
  | S fuel' =>
      match parseValue fuel' ts with
      | Some (v, TRBracket :: r) => Some ([v], r)
      | Some (v, TComma :: r) =>
          match parseElements fuel' r with
          | Some (vs, r') => Some (v :: vs, r')
          | None => None
          end
      | _ => None
      end
  end

with parseMembers (fuel : nat) (ts : list token)
  : option (list (jsstring * json) * list token) :=
  match fuel with
  | O => None
  | S fuel' =>
      match ts with
      | TString k :: TColon :: r =>
          match parseValue fuel' r with
          | Some (v, TRBrace :: r') => Some ([(k, v)], r')
          | Some (v, TComma :: r') =>
              match parseMembers fuel' r' with
              | Some (ms, r'') => Some ((k, v) :: ms, r'')
              | None => None
              end
          | _ => None
          end
      | _ => None
      end
  end.

Definition parseTokens (ts : list token) : option json :=
  match parseValue (S (List.length ts)) ts with
  | Some (v, []) => Some v
  | _ => None
  end.

(** [JSON.parse(s)] *)
Definition JSON_parse (s : jsstring) : option json :=
  match tokens s with
  | None => None
  | Some ts => parseTokens ts
  end.

(** *** Reading a parsed value *)

Fixpoint lookupLast (key : jsstring) (members : list (jsstring * json))
  : option json :=
  match members with
  | [] => None
  | (k, v) :: rest =>
      match lookupLast key rest with
      | Some v' => Some v'
      | None => if jsstring_eqb k key then Some v else None
      end
  end.

(** [value.key] on a parsed value other than [null], for a key that is
    not a built-in property: the member of that name when the value is an
    object (the last one, when the text repeated the name), [undefined]
    otherwise. *)
Definition getProperty (value : json) (key : jsstring) : option json :=
  match value with
  | JObject members => lookupLast key members
  | _ => None
  end.

(** The decimal reading of a number: the digits of its integer and
    fraction parts as one natural number, and the power of ten that
    scales it. *)
Inductive numPhase : Type := PInt | PFrac | PExp.

Record NumReading := mkReading {
  phase      : numPhase;
  allDigits  : Z;
  fracDigits : Z;
  expNeg     : bool;
  expDigits  : Z
}.

Definition readNumberChar (a : NumReading) (c : N) : NumReading :=
  if isDigit c then
    let d := Z.of_N (c - 48) in
    match phase a with
    | PInt => mkReading PInt (allDigits a * 10 + d) 0 false 0
    | PFrac =>
        mkReading PFrac (allDigits a * 10 + d) (fracDigits a + 1) false 0
    | PExp =>
        mkReading PExp (allDigits a) (fracDigits a) (expNeg a)
          (expDigits a * 10 + d)
    end
  else if (c =? 46)%N then
    mkReading PFrac (allDigits a) 0 false 0
  else if isExpMark c then
    mkReading PExp (allDigits a) (fracDigits a) false 0
  else if (c =? 45)%N then
    match phase a with
    | PExp => mkReading PExp (allDigits a) (fracDigits a) true 0
    | _ => a                      (* the sign of the number *)
    end
  else a.

Definition readNumber (lexeme : jsstring) : Z * Z :=
  let a := fold_left readNumberChar lexeme (mkReading PInt 0 0 false 0) in
  (allDigits a,
   ((if expNeg a then - expDigits a else expDigits a) - fracDigits a)%Z).

(** Whether the double nearest to the number is zero: its digits are all
    zero, or it is at most [2 ^ -1075], half the smallest positive
    double. *)
Definition numberIsZero (lexeme : jsstring) : bool :=
  let (m, e) := readNumber lexeme in
  ((m =? 0) || ((e <? 0) && (m * 2 ^ 1075 <=? 10 ^ (- e))))%Z.

(** A parsed value, or [undefined], used as a condition. *)
Definition truthyValue (value : option json) : bool :=
  match value with
  | None => false
  | Some JNull => false
  | Some (JBool b) => b
  | Some (JNumber lexeme) => negb (numberIsZero lexeme)
  | Some (JString s) => truthy s
  | Some (JArray _) => true
  | Some (JObject _) => true
  end.

End Json.
Import Json.

(** ** The retry wrapper *)

Module Retry.

(** What an execution of [withRetry] did: how many times it invoked the
    operation, and the delays passed to [sleep], oldest first. *)
Record Log := mkLog {
  calls  : nat;
  sleeps : list Z
}.

Definition start : Log := {| calls := 0; sleeps := [] |}.

Definition called (l : Log) : Log :=
  {| calls := S (calls l); sleeps := sleeps l |}.

Definition slept (ms : Z) (l : Log) : Log :=
  {| calls := calls l; sleeps := sleeps l ++ [ms] |}.

(** [error?.message?.includes(p)] *)
Definition message_includes (error : Thrown) (p : jsstring) : bool :=
  match messageOf error with
  | None => false
  | Some m => includes m p
  end.

Definition isOverloaded (error : Thrown) : bool :=
  message_includes error (js "overloaded")
  || message_includes error (js "503")
  || match codeOf error with Some c => (c =? 503)%Z | None => false end
  || match statusOf error with
     | Some s => jsstring_eqb s (js "UNAVAILABLE")
     | None => false
     end.

(** Whether a settlement is a failure that [withRetry] takes for a
    transient overload. *)
Definition transient {T} (o : Outcome T) : bool :=
  match o with
  | Fulfilled _ => false
  | Rejected error => isOverloaded error
  end.

(** The delays of [n] successive retries that start at [delay]:
    [delay, delay * 2, delay * 4, ...]. *)
Fixpoint backoff (delay : Z) (n : nat) : list Z :=
  match n with
  | O => []
  | S n' => delay :: backoff (delay * 2) n'
  end.

Section WithRetry.

Variable T : Type.

(** [operation k] is the settlement of the [k]-th invocation. *)
Variable operation : nat -> Outcome T.

Equations? withRetry (retries delay : Z) (log : Log)
  : Outcome T * Log by wf (Z.to_nat retries) lt :=
withRetry retries delay log with operation (calls log) := {
  | Fulfilled v => (Fulfilled v, called log)
  | Rejected error with isOverloaded error, Z_lt_dec 0 retries := {
    | true, left _ =>
        withRetry (retries - 1) (delay * 2) (slept delay (called log))
    | _, _ => (Rejected error, called log) } }.
Proof. lia. Qed.

End WithRetry.

(** Sample operations. *)

Definition overloadedError : JsError :=
  {| message := Some (js "The model is overloaded. Please try again later.");
     code := Some 503%Z;
     status := Some (js "UNAVAILABLE") |}.

Definition billingError : JsError :=
  {| message := Some (js "Imagen API is only accessible to billed users.");
     code := Some 400%Z;
     status := Some (js "INVALID_ARGUMENT") |}.

(** Overloaded on the first [n] attempts, then answers [v]. *)
Definition overloadedThenOk {T} (n : nat) (v : T) (k : nat) : Outcome T :=
  if Nat.ltb k n then Rejected overloadedError else Fulfilled v.

(** Refuses every attempt with the same thrown value. *)
Definition alwaysFails {T} (e : Thrown) (k : nat) : Outcome T :=
  Rejected e.

End Retry.
Import Retry.

(** ** The Gemini service: what the two copies share *)

(** The Markdown code fence: three backquotes (code unit 96), and the
    fence with its language tag. *)
Definition fence : jsstring := [96; 96; 96]%N.

Definition fenceJson : jsstring := fence ++ js "json".

(** [str : string | undefined] *)
Definition cleanJsonString (str : option jsstring) : jsstring :=
  match str with
  | None => js "{}"
  | Some [] => js "{}"
  | Some s =>
      let cleaned := trim s in
      let cleaned :=
        if startsWith cleaned fenceJson then
          removeSuffix fence (removePrefix fenceJson cleaned)
        else if startsWith cleaned fence then
          removeSuffix fence (removePrefix fence cleaned)
        else cleaned in
      trim cleaned
  end.

(** [FALLBACK_IMAGES] *)
Definition FALLBACK_IMAGES : list jsstring :=
  [ js "https://images.unsplash.com/photo-1485846234645-a62644f84728?q=80&w=720&auto=format&fit=crop";
    js "https://images.unsplash.com/photo-1519681393784-d120267933ba?q=80&w=720&auto=format&fit=crop";
    js "https://images.unsplash.com/photo-1500462918059-b1a0cb512f1d?q=80&w=720&auto=format&fit=crop";
    js "https://images.unsplash.com/photo-1478760329108-5c3ed9d495a0?q=80&w=720&auto=format&fit=crop";
    js "https://images.unsplash.com/photo-1550684848-fac1c5b4e853?q=80&w=720&auto=format&fit=crop";
    js "https://images.unsplash.com/photo-1534447677768-be436bb09401?q=80&w=720&auto=format&fit=crop" ].

(** A value of [Math.random()]: a double in the interval from 0 (included)
    to 1 (excluded).  Every such double is [mantissa * 2 ^ -(53 + scale)]
    for a mantissa below [2 ^ 53] and a scale of at least 0. *)
Record UnitDouble := mkUnitDouble {
  mantissa : Z;
  scale    : Z
}.

Definition isUnitDouble (r : UnitDouble) : Prop :=
  (0 <= mantissa r < 2 ^ 53)%Z /\ (0 <= scale r)%Z.

(** Rounding a natural number to 53 significant bits, to nearest, ties to
    even: what a floating-point multiplication does to the exact product
    of the significands. *)
Definition roundSignificand (n : Z) : Z :=
  let k := (Z.log2 n - 52)%Z in
  if (k <=? 0)%Z then n
  else
    let q := (n / 2 ^ k)%Z in
    let r := (n mod 2 ^ k)%Z in
    let half := (2 ^ (k - 1))%Z in
    ((if (half <? r)%Z || ((r =? half)%Z && Z.odd q)
      then q + 1 else q) * 2 ^ k)%Z.

(** [Math.floor(r * len)] for an array length [len]. *)
Definition floorOfProduct (r : UnitDouble) (len : Z) : Z :=
  (roundSignificand (mantissa r * len) / 2 ^ (53 + scale r))%Z.

(** [getRandomFallbackImage], given the value [Math.random()] returns;
    [None] is the [undefined] that an index out of the array reads. *)
Definition getRandomFallbackImage (random : UnitDouble) : option jsstring :=
  nth_error FALLBACK_IMAGES
    (Z.to_nat (floorOfProduct random (Z.of_nat (List.length FALLBACK_IMAGES)))).

(** [process.env], as far as the service reads it. *)
Record Env := mkEnv {
  API_KEY        : option jsstring;
  PEXELS_API_KEY : option jsstring
}.

(** The SDK client; all that matters of it is the key it was built with. *)
Record GoogleGenAI := mkClient {
  apiKey : jsstring
}.

(** [getAiClient], given the module variable [aiInstance]: what the call
    returns or throws, and [aiInstance] after the call. *)
Definition getAiClient (env : Env) (aiInstance : option GoogleGenAI)
  : Outcome GoogleGenAI * option GoogleGenAI :=
  match aiInstance with
  | Some ai => (Fulfilled ai, aiInstance)
  | None =>
      match API_KEY env with
      | Some (c :: key) =>
          let ai := {| apiKey := c :: key |} in
          (Fulfilled ai, Some ai)
      | _ => (Rejected (Error_ (js "API_KEY_MISSING")), None)
      end
  end.

(** A part of a response of [generateContent]: [part.inlineData.data], when
    there is one. *)
Record Part := mkPart {
  inlineData_data : option jsstring
}.

(** A response of [generateContent]: [response.text], and
    [response.candidates?.[0]?.content?.parts]. *)
Record GenerateContentResponse := mkContent {
  text  : option jsstring;
  parts : option (list Part)
}.

(** ** The copy of the service with the Pexels fallback

    The outside world is given by how each request settles.  A request is
    identified by the part of its payload that varies: the quote for the
    prompt analysis, the value of [visual_prompt] for the image request,
    the value of [searchKeywords] for the Pexels search.  [withRetry] is
    called with its defaults, [retries = 3] and [delay = 2000]. *)

Module PexelsChain.

Record PhotoSrc := mkSrc {
  large2x : option jsstring
}.

Record Photo := mkPhoto {
  src : option PhotoSrc
}.

(** The body of a Pexels search response: [data.photos]. *)
Record PexelsData := mkData {
  photos : option (list Photo)
}.

(** How [fetch] settles: it rejects, or it resolves with a response whose
    [ok] flag is given and whose [json()] yields a body or rejects. *)
Inductive FetchResult : Type :=
| FetchRejected (e : Thrown)
| FetchResponse (ok : bool) (body : option PexelsData).

Record World := mkWorld {
  (** the attempts of the prompt-analysis request for a quote *)
  analysisRequest : jsstring -> nat -> Outcome GenerateContentResponse;
  (** the attempts of the image request for a visual prompt *)
  imageRequest : option json -> nat -> Outcome GenerateContentResponse;
  (** the Pexels search for a query *)
  pexelsSearch : json -> FetchResult;
  (** the value of [Math.random()] *)
  random : UnitDouble;
  (** the messages of the errors the engine raises *)
  engine : Engine
}.

(** [null] and [undefined] are [None]. *)
Definition fetchPexelsImage (env : Env) (w : World) (query : json)
  : option jsstring :=
  if negb (truthy_opt (PEXELS_API_KEY env)) then None
  else
    match pexelsSearch w query with
    | FetchRejected _ => None
    | FetchResponse false _ => None          (* throw new Error(...) *)
    | FetchResponse true None => None        (* response.json() rejects *)
    | FetchResponse true (Some data) =>
        match photos data with
        | Some (photo :: _) =>
            match src photo with
            | Some s => large2x s
            | None => None                   (* TypeError, caught *)
            end
        | _ => None
        end
    end.

(** The loop over [response.candidates[0].content.parts]. *)
Fixpoint firstInlineData (ps : list Part) : option jsstring :=
  match ps with
  | [] => None
  | part :: ps' =>
      if truthy_opt (inlineData_data part) then inlineData_data part
      else firstInlineData ps'
  end.

(** The [try] block of [generateQuoteImage]: the prompt analysis, then the
    image generation.  The result is how the block ends, and the value of
    the variable [searchKeywords] at that point. *)
Definition generateWithAi (quoteText : jsstring) (w : World)
  : Outcome jsstring * json :=
  let searchKeywords := JString (js "abstract nature") in
  match fst (withRetry (analysisRequest w quoteText) 3 2000 start) with
  | Rejected e => (Rejected e, searchKeywords)
  | Fulfilled promptAnalysisResponse =>
      let jsonString := cleanJsonString (text promptAnalysisResponse) in
      match JSON_parse jsonString with
      | None =>
          (Rejected (raised (engine w) (MalformedJson jsonString)),
           searchKeywords)
      | Some JNull =>                        (* null.visual_prompt *)
          (Rejected (raised (engine w) (ReadOfNullish (js "visual_prompt"))),
           searchKeywords)
      | Some analysisData =>
          let visualPrompt := getProperty analysisData (js "visual_prompt") in
          let searchKeywords :=
            match getProperty analysisData (js "search_keywords") with
            | Some keywords =>
                if truthyValue (Some keywords) then keywords
                else JString (js "nature abstract")
            | None => JString (js "nature abstract")
            end in
          match fst (withRetry (imageRequest w visualPrompt) 3 2000 start) with
          | Rejected aiError => (Rejected aiError, searchKeywords)
          | Fulfilled response =>
              let base64ImageBytes :=
                match parts response with
                | Some ps => firstInlineData ps
                | None => None
                end in
              match base64ImageBytes with
              | Some bytes =>
                  (Fulfilled (js "data:image/jpeg;base64," ++ bytes),
                   searchKeywords)
              | None =>
                  (Rejected (Error_ (js "Dados de imagem não encontrados na resposta da IA.")),
                   searchKeywords)
              end
          end
      end
  end.

(** The [catch] block reads [error.message] for its last log line, before
    it calls [getRandomFallbackImage]: when the value caught is [null] or
    [undefined] that read raises a [TypeError], with which the function
    rejects. *)
Definition generateQuoteImage (env : Env) (aiInstance : option GoogleGenAI)
  (quoteText : jsstring) (w : World) : Outcome (option jsstring) :=
  match fst (getAiClient env aiInstance) with
  | Rejected e => Rejected e                 (* thrown before the try *)
  | Fulfilled ai =>
      match generateWithAi quoteText w with
      | (Fulfilled dataUri, _) => Fulfilled (Some dataUri)
      | (Rejected error, searchKeywords) =>
          let pexelsImage := fetchPexelsImage env w searchKeywords in
          if truthy_opt pexelsImage then Fulfilled pexelsImage
          else
            match error with
            | Nullish =>                     (* error.message *)
                Rejected (raised (engine w) (ReadOfNullish (js "message")))
            | ErrorObject _ =>
                Fulfilled (getRandomFallbackImage (random w))
            end
      end
  end.

End PexelsChain.

(** ** The copy of the service that only uses Imagen

    Here a request is identified by the quote (the request for a visual
    prompt) and by the visual prompt (the image request). *)

Module ImagenOnly.

(** A response of [generateImages]:
    [response.generatedImages?.[0]?.image?.imageBytes]. *)
Record GenerateImagesResponse := mkImages {
  imageBytes : option jsstring
}.

Record World := mkWorld {
  (** the attempts of the request for a visual prompt for a quote *)
  descriptionRequest : jsstring -> nat -> Outcome GenerateContentResponse;
  (** the attempts of the image request for a visual prompt *)
  imagesRequest : jsstring -> nat -> Outcome GenerateImagesResponse;
  (** the value of [Math.random()] *)
  random : UnitDouble;
  (** the messages of the errors the engine raises *)
  engine : Engine
}.

(** The [try] block of [generateQuoteImage]. *)
Definition tryBlock (env : Env) (aiInstance : option GoogleGenAI)
  (quoteText : jsstring) (w : World) : Outcome (option jsstring) :=
  match fst (getAiClient env aiInstance) with
  | Rejected e => Rejected e
  | Fulfilled ai =>
      match fst (withRetry (descriptionRequest w quoteText) 3 2000 start) with
      | Rejected e => Rejected e
      | Fulfilled descriptionResponse =>
          match option_map trim (text descriptionResponse) with
          | Some (c :: prompt) =>
              let visualPrompt := c :: prompt in
              match fst (withRetry (imagesRequest w visualPrompt) 3 2000
                           start) with
              | Rejected e => Rejected e
              | Fulfilled response =>
                  match imageBytes response with
                  | Some (b :: bytes) =>
                      Fulfilled
                        (Some (js "data:image/jpeg;base64," ++ b :: bytes))
                  | _ =>
                      Rejected
                        (Error_ (js "API de Imagem não retornou dados."))
                  end
              end
          | _ => Fulfilled (getRandomFallbackImage (random w))
          end
      end
  end.

(** The [catch] block reads [error.message] in the arguments of its log
    line, before it calls [getRandomFallbackImage]: when the value caught
    is [null] or [undefined] that read raises a [TypeError], with which
    the function rejects. *)
Definition generateQuoteImage (env : Env) (aiInstance : option GoogleGenAI)
  (quoteText : jsstring) (w : World) : Outcome (option jsstring) :=
  match tryBlock env aiInstance quoteText w with
  | Fulfilled image => Fulfilled image
  | Rejected Nullish =>                      (* error.message *)
      Rejected (raised (engine w) (ReadOfNullish (js "message")))
  | Rejected (ErrorObject _) => Fulfilled (getRandomFallbackImage (random w))
  end.

End ImagenOnly.

(** ** The application shell ([App.tsx]) *)

Module App.

(** A quote record ([types.ts]); every field is a string. *)
Record Quote := mkQuote {
  id       : jsstring;
  quote    : jsstring;
  author   : jsstring;
  imageUrl : jsstring
}.

(** [fav => fav.quote === text] and its negation. *)
Definition hasText (text : jsstring) (fav : Quote) : bool :=
  jsstring_eqb (quote fav) text.

Definition hasOtherText (text : jsstring) (fav : Quote) : bool :=
  negb (jsstring_eqb (quote fav) text).

(** The updater that [toggleFavorite] hands to [setFavorites]: from the
    previous favorites to the next ones. *)
Definition toggleFavorite (q : Quote) (prev : list Quote) : list Quote :=
  let exists_ := existsb (hasText (quote q)) prev in
  if exists_
  then filter (hasOtherText (quote q)) prev   (* Remove *)
  else q :: prev.                             (* Adiciona *)

Definition isQuoteFavorite (favorites : list Quote) (quoteText : jsstring)
  : bool :=
  existsb (hasText quoteText) favorites.

(** [err.message || ""], for an [err] that is not [null] or [undefined] *)
Definition errorText (err : JsError) : jsstring :=
  match message err with
  | Some m => m
  | None => []
  end.

(** [handleApiError]: the message it returns, or [None] when it throws.
    Its first statement after the log line reads [err.message], which
    raises a [TypeError] when [err] is [null] or [undefined]. *)
Definition handleApiError (err : Thrown) : option jsstring :=
  match err with
  | Nullish => None                          (* err.message *)
  | ErrorObject e =>
      let msg := errorText e in
      if jsstring_eqb msg (js "API_KEY_MISSING") then
        Some (js "Configuração necessária: Verifique se a API_KEY está definida no .env ou no painel de hospedagem.")
      else if includes msg (js "503") || includes msg (js "overloaded")
              || includes msg (js "UNAVAILABLE") then
        Some (js "Nossa musa inspiradora está com alta demanda no momento. Por favor, aguarde alguns segundos e tente novamente.")
      else if includes msg (js "429") || includes msg (js "quota") then
        Some (js "Limite de requisições excedido. Aguarde um momento antes de buscar novamente.")
      else
        Some (js "Erro: " ++ (if truthy msg then msg
                              else js "Falha desconhecida na conexão."))
  end.

(** The four kinds of user-facing message. *)
Inductive Category := MissingCredential | Overload | Quota | Unknown.

(** The text shown for each kind; the unknown kind quotes the error text. *)
Definition userMessage (c : Category) (msg : jsstring) : jsstring :=
  match c with
  | MissingCredential =>
      js "Configuração necessária: Verifique se a API_KEY está definida no .env ou no painel de hospedagem."
  | Overload =>
      js "Nossa musa inspiradora está com alta demanda no momento. Por favor, aguarde alguns segundos e tente novamente."
  | Quota =>
      js "Limite de requisições excedido. Aguarde um momento antes de buscar novamente."
  | Unknown =>
      js "Erro: " ++ (if truthy msg then msg
                      else js "Falha desconhecida na conexão.")
  end.

(** The classification when the missing-credential kind is chosen by
    comparing the whole error text, the other kinds by substring, first
    match first. *)
Definition categoryOf (msg : jsstring) : Category :=
  if jsstring_eqb msg (js "API_KEY_MISSING") then MissingCredential
  else if includes msg (js "503") || includes msg (js "overloaded")
          || includes msg (js "UNAVAILABLE") then Overload
  else if includes msg (js "429") || includes msg (js "quota") then Quota
  else Unknown.

(** The classification when every kind, the missing-credential one
    included, is chosen by substring. *)
Definition categoryBySubstring (msg : jsstring) : Category :=
  if includes msg (js "API_KEY_MISSING") then MissingCredential
  else if includes msg (js "503") || includes msg (js "overloaded")
          || includes msg (js "UNAVAILABLE") then Overload
  else if includes msg (js "429") || includes msg (js "quota") then Quota
  else Unknown.

(** Sample records. *)
Definition seneca : Quote :=
  {| id := js "k1"; quote := js "Dum differtur vita transcurrit.";
     author := js "Seneca"; imageUrl := [] |}.

Definition epicteto : Quote :=
  {| id := js "k2"; quote := js "Suporta e abstem-te.";
     author := js "Epicteto"; imageUrl := [] |}.

End App.
Import App.

(** ** Sample environments and worlds *)

Module Samples.

(** A sample response body, and the value it stands for:
    an object with the members quote and author. *)
Definition quotePayload : jsstring :=
  js "{ " ++ [34%N] ++ js "quote" ++ [34%N] ++ js ": "
    ++ [34%N] ++ js "Conhece-te a ti mesmo." ++ [34%N] ++ js ", "
    ++ [34%N] ++ js "author" ++ [34%N] ++ js ": "
    ++ [34%N] ++ js "S\u00f3crates" ++ [34%N] ++ js " }".

Definition quoteValue : json :=
  JObject [(js "quote", JString (js "Conhece-te a ti mesmo."));
           (js "author", JString (js "Sócrates"))].

Definition configured : Env :=
  {| API_KEY := Some (js "AIza-sample-key");
     PEXELS_API_KEY := Some (js "pexels-sample-key") |}.

Definition unconfigured : Env :=
  {| API_KEY := None; PEXELS_API_KEY := None |}.

Definition half : UnitDouble := {| mantissa := 2 ^ 52; scale := 0 |}.

(** A sample wording of the errors the engine raises. *)
Definition sampleEngine : Engine := fun fault =>
  match fault with
  | MalformedJson text =>
      js "Unexpected token in JSON: " ++ text
  | ReadOfNullish property =>
      js "Cannot read properties of undefined (reading '" ++ property
        ++ js "')"
  | NotAFunction property => property ++ js " is not a function"
  end.

(** The analysis answers with a fenced JSON object that has the two
    members the service reads. *)
Definition analysisPayload : jsstring :=
  js "{ " ++ [34%N] ++ js "visual_prompt" ++ [34%N] ++ js ": "
    ++ [34%N] ++ js "An ancient hourglass buried in sand dunes at sunset"
    ++ [34%N] ++ js ", "
    ++ [34%N] ++ js "search_keywords" ++ [34%N] ++ js ": "
    ++ [34%N] ++ js "time sand sunset" ++ [34%N] ++ js " }".

Definition analysisAnswer : GenerateContentResponse :=
  {| text := Some (fenceJson ++ [10%N] ++ analysisPayload ++ [10%N] ++ fence);
     parts := None |}.

Definition stockUrl : jsstring :=
  js "https://images.pexels.com/photos/1/sample.jpeg?auto=compress&dpr=2".

Definition onePhoto : PexelsChain.PexelsData :=
  {| PexelsChain.photos :=
       Some [ {| PexelsChain.src :=
                   Some {| PexelsChain.large2x := Some stockUrl |} |} ] |}.

Definition noPhoto : PexelsChain.PexelsData :=
  {| PexelsChain.photos := Some [] |}.

(** The image model refuses (billing); Pexels has a photo for the keywords
    of the analysis, and for no other query. *)
Definition stockPhotoFound : PexelsChain.World :=
  {| PexelsChain.analysisRequest := fun _ _ => Fulfilled analysisAnswer;
     PexelsChain.imageRequest := fun _ => alwaysFails billingError;
     PexelsChain.pexelsSearch := fun query =>
       match query with
       | JString q =>
           if jsstring_eqb q (js "time sand sunset")
           then PexelsChain.FetchResponse true (Some onePhoto)
           else PexelsChain.FetchResponse true (Some noPhoto)
       | _ => PexelsChain.FetchResponse true (Some noPhoto)
       end;
     PexelsChain.random := half;
     PexelsChain.engine := sampleEngine |}.

(** The image model refuses (billing); Pexels answers with an HTTP error. *)
Definition everythingFails : PexelsChain.World :=
  {| PexelsChain.analysisRequest := fun _ _ => Fulfilled analysisAnswer;
     PexelsChain.imageRequest := fun _ => alwaysFails billingError;
     PexelsChain.pexelsSearch := fun _ => PexelsChain.FetchResponse false None;
     PexelsChain.random := half;
     PexelsChain.engine := sampleEngine |}.

(** The analysis answers; the image request rejects with [undefined];
    Pexels answers with an HTTP error. *)
Definition imageRejectsWithUndefined : PexelsChain.World :=
  {| PexelsChain.analysisRequest := fun _ _ => Fulfilled analysisAnswer;
     PexelsChain.imageRequest := fun _ => alwaysFails Nullish;
     PexelsChain.pexelsSearch := fun _ => PexelsChain.FetchResponse false None;
     PexelsChain.random := half;
     PexelsChain.engine := sampleEngine |}.

(** The Imagen copy: the request for a visual prompt rejects with
    [undefined]. *)
Definition imagenRejectsWithUndefined : ImagenOnly.World :=
  {| ImagenOnly.descriptionRequest := fun _ => alwaysFails Nullish;
     ImagenOnly.imagesRequest := fun _ => alwaysFails Nullish;
     ImagenOnly.random := half;
     ImagenOnly.engine := sampleEngine |}.

(** The Imagen copy: the model stays overloaded. *)
Definition imagenOverloaded : ImagenOnly.World :=
  {| ImagenOnly.descriptionRequest := fun _ => alwaysFails overloadedError;
     ImagenOnly.imagesRequest := fun _ => alwaysFails overloadedError;
     ImagenOnly.random := half;
     ImagenOnly.engine := sampleEngine |}.

End Samples.

Import PexelsChain.

(** ** More of the application shell *)

Module AppView.

(** The condition under which the error panel of [App.tsx] offers the
    button that reloads the page. *)
Definition showsRetryButton (error : jsstring) : bool :=
  includes error (js "demanda") || includes error (js "Limite").

End AppView.

(** The sum of a list of delays. *)
Definition totalDelay (delays : list Z) : Z := fold_right Z.add 0%Z delays.

(** ** The build configuration ([vite.config.ts]) *)

Module ViteConfig.

(** [a || b] on optional strings: [a] when it is truthy, else [b]. *)
Definition orElse (a b : option jsstring) : option jsstring :=
  if truthy_opt a then a else b.

(** The value of [apiKey] that the configuration injects as
    [process.env.API_KEY], from the system variable [process.env.API_KEY]
    and the entries [API_KEY] and [VITE_API_KEY] that [loadEnv] returns. *)
Definition resolveApiKey (systemKey envKey viteKey : option jsstring)
  : option jsstring :=
  let apiKey := orElse (orElse systemKey envKey) viteKey in
  if truthy_opt apiKey then option_map trim apiKey else apiKey.

End ViteConfig.

(** ** The Gemini service: the quote requests

    [getPhilosophicalQuotes] and [getQuoteOfTheDay] are the same in both
    copies of the service.  A quote as they return it is read through the
    four properties of the [Quote] interface; [quote] and [author] hold
    whatever the response held under those names ([None] when it held
    nothing).  [generateId] draws on the clock and on [Math.random()]: the
    world gives the identifier that its [k]-th call returns. *)

Module TextService.

Record FetchedQuote := mkFetched {
  id       : jsstring;
  quote    : option json;
  author   : option json;
  imageUrl : option jsstring
}.

Record World := mkWorld {
  (** the attempts of the request for quotes on a theme *)
  quotesRequest : jsstring -> nat -> Outcome GenerateContentResponse;
  (** the attempts of the request for the quote of the day *)
  dailyRequest : nat -> Outcome GenerateContentResponse;
  (** the identifier that the [k]-th call of [generateId] returns *)
  generateId : nat -> jsstring;
  (** the messages of the errors the engine raises *)
  engine : Engine
}.

(** [!jsonString || jsonString === "{}"] *)
Definition emptyContent (jsonString : jsstring) : bool :=
  negb (truthy jsonString) || jsstring_eqb jsonString (js "{}").

(** [quotesRaw.map(q => ({ ...q, id: generateId(), imageUrl: '' }))], from
    the [k]-th call of [generateId] on. *)
Fixpoint withIds (w : World) (k : nat) (quotesRaw : list json)
  : list FetchedQuote :=
  match quotesRaw with
  | [] => []
  | q :: rest =>
      {| id := generateId w k;
         quote := getProperty q (js "quote");
         author := getProperty q (js "author");
         imageUrl := Some [] |}
        :: withIds w (S k) rest
  end.

(** The result, and the module variable [aiInstance] after the call. *)
Definition getPhilosophicalQuotes (env : Env)
  (aiInstance : option GoogleGenAI) (theme : jsstring) (w : World)
  : Outcome (list FetchedQuote) * option GoogleGenAI :=
  match getAiClient env aiInstance with
  | (Rejected e, aiInstance') => (Rejected e, aiInstance')
  | (Fulfilled ai, aiInstance') =>
      (match fst (withRetry (quotesRequest w theme) 3 2000 start) with
       | Rejected e => Rejected e
       | Fulfilled response =>
           let jsonString := cleanJsonString (text response) in
           if emptyContent jsonString
           then Rejected (Error_ (js "API retornou conteúdo vazio."))
           else
             match JSON_parse jsonString with
             | None => Rejected (raised (engine w) (MalformedJson jsonString))
             | Some (JArray quotesRaw) => Fulfilled (withIds w 0 quotesRaw)
             | Some JNull =>                 (* null.map *)
                 Rejected (raised (engine w) (ReadOfNullish (js "map")))
             | Some _ =>                     (* no array: no [map] *)
                 Rejected (raised (engine w) (NotAFunction (js "map")))
             end
       end,
       aiInstance')
  end.

Section WithImages.

(** The copy's [generateQuoteImage], for the given [aiInstance] and quote
    text; the last argument tells the calls of one run apart. *)
Variable generateQuoteImage :
  option GoogleGenAI -> jsstring -> nat -> Outcome (option jsstring).

(** The text a template literal makes of a value. *)
Variable toText : option json -> jsstring.


End WithImages.

End TextService.

(** A quote whose image is a string that is not empty. *)
Definition hasImage (q : TextService.FetchedQuote) : Prop :=
  exists url, TextService.imageUrl q = Some url /\ url <> [].

(** ** The search handler of [App.tsx] *)

Module AppSearch.

Import TextService.

Inductive ViewState : Type := search | favorites.

(** The state variables that [handleSearch] reads or sets. *)
Record UiState := mkUi {
  searchTerm  : jsstring;
  quotes      : list FetchedQuote;
  isLoading   : bool;
  error       : option jsstring;
  currentView : ViewState
}.

Section WithImages.

Variable generateQuoteImage :
  option GoogleGenAI -> jsstring -> nat -> Outcome (option jsstring).

Variable toText : option json -> jsstring.

(** [fetchedQuotes.map(async quote => ...)] followed by [Promise.all]: one
    call of [generateQuoteImage] per quote, the results in the order of the
    quotes.  When several calls reject, the one that rejects first in time
    decides; here it is the first in the list. *)
Fixpoint withImages (aiInstance : option GoogleGenAI) (k : nat)
  (fetchedQuotes : list FetchedQuote) : Outcome (list FetchedQuote) :=
  match fetchedQuotes with
  | [] => Fulfilled []
  | q :: rest =>
      match generateQuoteImage aiInstance (toText (quote q)) k with
      | Rejected e => Rejected e
      | Fulfilled image =>
          match withImages aiInstance (S k) rest with
          | Rejected e => Rejected e
          | Fulfilled resolved =>
              Fulfilled
                ({| id := id q; quote := quote q; author := author q;
                    imageUrl := image |} :: resolved)
          end
      end
  end.

(** The state once [handleSearch] has run to its end, and [aiInstance]
    then.  The [catch] block calls [setError(handleApiError(err))]: when
    [handleApiError] throws, [setError] is not called and [error] keeps the
    [null] it was given before the [try]; the [finally] block clears
    [isLoading] all the same. *)
Definition handleSearch (env : Env) (aiInstance : option GoogleGenAI)
  (w : World) (s : UiState) : UiState * option GoogleGenAI :=
  if negb (truthy (trim (searchTerm s))) then
    ({| searchTerm := searchTerm s; quotes := quotes s;
        isLoading := isLoading s;
        error := Some (js "Por favor, insira um tema para a busca.");
        currentView := currentView s |},
     aiInstance)
  else
    match getPhilosophicalQuotes env aiInstance (searchTerm s) w with
    | (Rejected err, aiInstance') =>
        ({| searchTerm := searchTerm s; quotes := [];
            isLoading := false;
            error := handleApiError err;
            currentView := search |},
         aiInstance')
    | (Fulfilled [], aiInstance') =>
        ({| searchTerm := searchTerm s; quotes := [];
            isLoading := false;
            error := Some (js "Não foram encontradas citações para este tema. Tente outro.");
            currentView := search |},
         aiInstance')
    | (Fulfilled fetchedQuotes, aiInstance') =>
        match withImages aiInstance' 0 fetchedQuotes with
        | Rejected err =>
            ({| searchTerm := searchTerm s; quotes := [];
                isLoading := false;
                error := handleApiError err;
                currentView := search |},
             aiInstance')
        | Fulfilled resolvedQuotes =>
            ({| searchTerm := searchTerm s; quotes := resolvedQuotes;
                isLoading := false;
                error := None;
                currentView := search |},
             aiInstance')
        end
    end.

End WithImages.

End AppSearch.

(** ** The download of a card ([components/QuoteCard.tsx]) *)

Module QuoteCard.

(** [processImage], the effect that prepares the image of a card.  Given
    the quote's [imageUrl], whether the card is still mounted when the work
    ends, and how the conversion of an external image settles (the fetch,
    then the data URL the [FileReader] produced, [None] when it produced
    nothing): the value passed to [setImgSrc] together with
    [setIsImageReady(true)], or [None] when the state is left alone. *)
Definition processImage (imageUrl : jsstring) (isMounted : bool)
  (conversion : Outcome (option jsstring)) : option (option jsstring) :=
  if negb (truthy imageUrl) then None
  else if startsWith imageUrl (js "data:") then
    if isMounted then Some (Some imageUrl) else None
  else
    match conversion with
    | Fulfilled dataUrl => if isMounted then Some dataUrl else None
    | Rejected _ => if isMounted then Some (Some imageUrl) else None
    end.

Definition isAsciiLetterOrDigit (c : N) : bool :=
  (((97 <=? c) && (c <=? 122))       (* a .. z *)
   || ((65 <=? c) && (c <=? 90))     (* A .. Z *)
   || ((48 <=? c) && (c <=? 57)))%N. (* 0 .. 9 *)

(** [s.replace(/[^a-z0-9]/gi, '_')]: every code unit that is not an ASCII
    letter or digit becomes an underscore. *)
Definition replaceUnsafe (s : jsstring) : jsstring :=
  map (fun c => if isAsciiLetterOrDigit c then c else 95%N) s.

(** [toLowerCase] on ASCII characters, all it meets after [replaceUnsafe]. *)
Definition toLowerCaseAscii (s : jsstring) : jsstring :=
  map (fun c => if ((65 <=? c) && (c <=? 90))%N then (c + 32)%N else c) s.

Definition safeAuthor (author : jsstring) : jsstring :=
  toLowerCaseAscii (replaceUnsafe author).

(** The decimal digits of a natural number, most significant first. *)
Fixpoint digitsFrom (fuel : nat) (n : N) (acc : jsstring) : jsstring :=
  match fuel with
  | O => acc
  | S fuel' =>
      let acc' := (48 + n mod 10)%N :: acc in
      if (n <? 10)%N then acc' else digitsFrom fuel' (n / 10)%N acc'
  end.

(** [String(n)] for a natural number below [10 ^ 21]. *)
Definition decimal (n : N) : jsstring :=
  digitsFrom (S (N.to_nat (N.log2 n))) n [].

(** The name [handleDownload] gives the file: sophia-, the safe author,
    a hyphen, the value of [Date.now()], .jpg. *)
Definition downloadName (author : jsstring) (now : N) : jsstring :=
  js "sophia-" ++ safeAuthor author ++ js "-" ++ decimal now ++ js ".jpg".

(** The characters of a plain file name: lower-case ASCII letters, digits,
    underscore, hyphen and full stop. *)
Definition isFileNameChar (c : N) : bool :=
  (((97 <=? c) && (c <=? 122)) || ((48 <=? c) && (c <=? 57))
   || (c =? 95) || (c =? 45) || (c =? 46))%N.

End QuoteCard.

(** ** The two copies as image services, and sample worlds for the quote
    requests *)

(** An answer that [getPhilosophicalQuotes] and [getQuoteOfTheDay] take
    for empty: no text, a blank text, or the empty object, bare or fenced,
    with any white space around. *)
Inductive EmptyAnswer : option jsstring -> Prop :=
| EmptyUndefined : EmptyAnswer None
| EmptyBlank (s : jsstring) :
    allWhiteSpace s = true -> EmptyAnswer (Some s)
| EmptyObject (ws1 ws2 : jsstring) :
    allWhiteSpace ws1 = true -> allWhiteSpace ws2 = true ->
    EmptyAnswer (Some (ws1 ++ js "{}" ++ ws2))
| EmptyFenced (ws1 ws2 ws3 ws4 opening : jsstring) :
    opening = fenceJson \/ opening = fence ->
    allWhiteSpace ws1 = true -> allWhiteSpace ws2 = true ->
    allWhiteSpace ws3 = true -> allWhiteSpace ws4 = true ->
    EmptyAnswer (Some (ws1 ++ opening ++ ws2 ++ js "{}" ++ ws3
                         ++ fence ++ ws4)).

(** [generateQuoteImage] of the copy with the Pexels chain, the [k]-th
    call of a run seeing the world [worlds k]. *)
Definition pexelsImages (env : Env) (worlds : nat -> PexelsChain.World)
  : option GoogleGenAI -> jsstring -> nat -> Outcome (option jsstring) :=
  fun aiInstance quoteText k =>
    PexelsChain.generateQuoteImage env aiInstance quoteText (worlds k).

(** [generateQuoteImage] of the copy that only uses Imagen. *)
Definition imagenImages (env : Env) (worlds : nat -> ImagenOnly.World)
  : option GoogleGenAI -> jsstring -> nat -> Outcome (option jsstring) :=
  fun aiInstance quoteText k =>
    ImagenOnly.generateQuoteImage env aiInstance quoteText (worlds k).

Module TextSamples.

(** The image model answers with inline image data. *)
Definition aiImageMade : PexelsChain.World :=
  {| PexelsChain.analysisRequest := fun _ _ =>
       Fulfilled Samples.analysisAnswer;
     PexelsChain.imageRequest := fun _ _ =>
       Fulfilled {| text := None;
                    parts := Some [ {| inlineData_data := None |};
                                    {| inlineData_data :=
                                         Some (js "/9j/4AAQ") |} ] |};
     PexelsChain.pexelsSearch := fun _ =>
       PexelsChain.FetchResponse false None;
     PexelsChain.random := Samples.half;
     PexelsChain.engine := Samples.sampleEngine |}.

(** An array of two quotes. *)
Definition quotesPayload : jsstring :=
  js "[" ++ Samples.quotePayload ++ js ", " ++ Samples.quotePayload ++ js "]".

Definition answering (payload : jsstring) : GenerateContentResponse :=
  {| text := Some payload; parts := None |}.

Definition world : TextService.World :=
  {| TextService.quotesRequest := fun _ _ => Fulfilled (answering quotesPayload);
     TextService.dailyRequest := fun _ => Fulfilled (answering Samples.quotePayload);
     TextService.generateId := fun k => js "m2x9k" ++ QuoteCard.decimal (N.of_nat k);
     TextService.engine := Samples.sampleEngine |}.

(** The model answers with a fenced empty object. *)
Definition emptyWorld : TextService.World :=
  {| TextService.quotesRequest := fun _ _ =>
       Fulfilled (answering (fenceJson ++ [10%N] ++ js "{}" ++ [10%N]
                               ++ fence ++ []));
     TextService.dailyRequest := fun _ =>
       Fulfilled (answering (js "{}"));
     TextService.generateId := fun _ => js "m2x9k";
     TextService.engine := Samples.sampleEngine |}.

(** The request for quotes rejects with [null]. *)
Definition rejectingWithNull : TextService.World :=
  {| TextService.quotesRequest := fun _ => alwaysFails Nullish;
     TextService.dailyRequest := alwaysFails Nullish;
     TextService.generateId := fun _ => js "m2x9k";
     TextService.engine := Samples.sampleEngine |}.

(** The text of a value, for the values that are strings. *)
Definition textOf (value : option json) : jsstring :=
  match value with
  | Some (JString s) => s
  | _ => js "undefined"
  end.

Definition idle (term : jsstring) : AppSearch.UiState :=
  {| AppSearch.searchTerm := term; AppSearch.quotes := [];
     AppSearch.isLoading := false; AppSearch.error := None;
     AppSearch.currentView := AppSearch.favorites |}.

End TextSamples.

(** * Properties *)

(** Case analysis on the comparisons of a goal, closing by arithmetic the
    cases that contradict what is known of the code unit. *)
Ltac cmp_cases :=
  repeat (match goal with
          | |- context [(?a =? ?b)%N] => destruct (N.eqb_spec a b)
          | |- context [(?a <=? ?b)%N] => destruct (N.leb_spec a b)
          | |- context [(?a <? ?b)%N] => destruct (N.ltb_spec a b)
          end; try lia; cbn [andb orb negb]).

(** ** The retry wrapper *)

Section RetryFacts.

Variable T : Type.
Variable operation : nat -> Outcome T.

(** The body of [withRetry], as one equation. *)
Lemma withRetry_unfold retries delay log :
  withRetry operation retries delay log =
  match operation (calls log) with
  | Fulfilled v => (Fulfilled v, called log)
  | Rejected error =>
      if isOverloaded error && (0 <? retries)%Z
      then withRetry operation (retries - 1) (delay * 2)
             (slept delay (called log))
      else (Rejected error, called log)
  end.
Proof.
  funelim (withRetry operation retries delay log).
  - rewrite Heq. reflexivity.
  - rewrite Heq1, Heq0.
    rewrite (proj2 (Z.ltb_lt 0 retries) l). reflexivity.
  - rewrite Heq1, Heq0. reflexivity.
  - rewrite Heq0.
    rewrite (proj2 (Z.ltb_nlt 0 retries) n), andb_false_r. reflexivity.
Qed.

(** A run against an operation whose next [N] attempts are transient
    failures and whose attempt after those is not: the wrapper stops at
    attempt [min N r], having slept the first [min N r] backoff delays. *)
Lemma withRetry_run :
  forall (N r : nat) (d : Z) (log : Log),
    (forall k, k < N -> transient (operation (calls log + k)) = true) ->
    (N <= r -> transient (operation (calls log + N)) = false) ->
    withRetry operation (Z.of_nat r) d log =
    (operation (calls log + Nat.min N r),
     {| calls := calls log + S (Nat.min N r);
        sleeps := sleeps log ++ backoff d (Nat.min N r) |}).
Proof.
  induction N as [|N IH]; intros r d log Hfail Hnext.
  - rewrite withRetry_unfold. simpl Nat.min.
    specialize (Hnext (Nat.le_0_l r)).
    rewrite Nat.add_0_r in *. unfold called. simpl backoff.
    rewrite app_nil_r, Nat.add_1_r.
    destruct (operation (calls log)) as [v|e]; simpl in *.
    + reflexivity.
    + rewrite Hnext. reflexivity.
  - rewrite withRetry_unfold.
    pose proof (Hfail 0 (Nat.lt_0_succ N)) as H0.
    rewrite Nat.add_0_r in H0.
    destruct (operation (calls log)) as [v|e] eqn:E; simpl in H0;
      [discriminate|].
    rewrite H0. destruct r as [|r].
    + simpl. rewrite Nat.add_0_r, E, app_nil_r, Nat.add_1_r. reflexivity.
    + replace (0 <? Z.of_nat (S r))%Z with true
        by (symmetry; apply Z.ltb_lt; lia).
      replace (Z.of_nat (S r) - 1)%Z with (Z.of_nat r) by lia.
      simpl andb. cbv iota.
      rewrite IH.
      * simpl. rewrite <- app_assoc. simpl.
        rewrite <- !plus_n_Sm. reflexivity.
      * intros k Hk. simpl.
        specialize (Hfail (S k) (proj1 (Nat.succ_lt_mono k N) Hk)).
        rewrite <- plus_n_Sm in Hfail. exact Hfail.
      * intros Hle. simpl.
        specialize (Hnext (proj1 (Nat.succ_le_mono N r) Hle)).
        rewrite <- plus_n_Sm in Hnext. exact Hnext.
Qed.

End RetryFacts.

(** With a budget that is not positive the operation is invoked once. *)
Lemma withRetry_no_budget (T : Type) (operation : nat -> Outcome T)
  (retries delay : Z) (log : Log) :
  (retries <= 0)%Z ->
  withRetry operation retries delay log
    = (operation (calls log), called log).
Proof.
  intros H. rewrite withRetry_unfold.
  destruct (operation (calls log)) as [v|e]; [reflexivity|].
  rewrite (proj2 (Z.ltb_nlt 0 retries)) by lia.
  rewrite andb_false_r. reflexivity.
Qed.

(** C1.  An operation that fails with a transient-overload signal on its
    first [N] attempts, and whose next attempt (when the budget reaches it)
    is not such a failure, is invoked exactly [min (N + 1) 4] times by
    [withRetry] with its default budget of 3; the delays slept are the first
    [N] of 2000, 4000, 8000 (all three once the budget is exhausted), each
    strictly larger than the one before; the wrapper settles like the last
    attempt made. *)
Theorem withRetry_transient_calls :
  forall (T : Type) (operation : nat -> Outcome T) (N : nat),
    (forall k, k < N -> transient (operation k) = true) ->
    (N <= 3 -> transient (operation N) = false) ->
    fst (withRetry operation 3 2000 start) = operation (Nat.min N 3) /\
    calls (snd (withRetry operation 3 2000 start)) = Nat.min (N + 1) 4 /\
    sleeps (snd (withRetry operation 3 2000 start))
      = firstn N [2000; 4000; 8000]%Z /\
    StronglySorted Z.lt (sleeps (snd (withRetry operation 3 2000 start))).
Proof.
  intros T operation N Hfail Hnext.
  change 3%Z with (Z.of_nat 3).
  rewrite (withRetry_run operation (N := N) (r := 3) 2000 start);
    [| exact Hfail | exact Hnext].
  cbn [fst snd calls sleeps start app Nat.add].
  assert (Hsorted : forall n, StronglySorted Z.lt (backoff 2000 (Nat.min n 3))).
  { intros n. destruct n as [|[|[|[|n]]]]; cbn;
      repeat (constructor; try lia). }
  split; [reflexivity|]. split; [lia|]. split.
  - destruct N as [|[|[|[|N]]]]; reflexivity.
  - apply Hsorted.
Qed.

Lemma withRetry_transient_calls_witness :
  fst (withRetry (overloadedThenOk 2 7%nat) 3 2000 start) = Fulfilled 7%nat /\
  calls (snd (withRetry (overloadedThenOk 2 7%nat) 3 2000 start)) = 3 /\
  sleeps (snd (withRetry (overloadedThenOk 2 7%nat) 3 2000 start))
    = [2000; 4000]%Z /\
  StronglySorted Z.lt
    (sleeps (snd (withRetry (overloadedThenOk 2 7%nat) 3 2000 start))).
Proof.
  apply (@withRetry_transient_calls nat (overloadedThenOk 2 7%nat) 2).
  - intros k Hk. destruct k as [|[|k]]; [reflexivity | reflexivity | lia].
  - intros _. reflexivity.
Defined.

(** C4.  When the first attempt fails with an error that carries no
    transient-overload signal (its message contains neither 'overloaded'
    nor '503', its code is not 503, its status is not 'UNAVAILABLE'),
    [withRetry] rejects with that very error after exactly one invocation
    and without sleeping, whatever the budget and the delay.  The error is
    any thrown value, [null] and [undefined] included, read the way the
    [catch] block reads it. *)
Theorem withRetry_non_transient_propagates :
  forall (T : Type) (operation : nat -> Outcome T) (retries delay : Z)
         (error : Thrown),
    operation 0 = Rejected error ->
    message_includes error (js "overloaded") = false ->
    message_includes error (js "503") = false ->
    codeOf error <> Some 503%Z ->
    statusOf error <> Some (js "UNAVAILABLE") ->
    withRetry operation retries delay start
      = (Rejected error, {| calls := 1; sleeps := [] |}).
Proof.
  intros T operation retries delay error Hop Hm1 Hm2 Hcode Hstatus.
  rewrite withRetry_unfold. cbn [calls start]. rewrite Hop.
  assert (Hno : isOverloaded error = false).
  { unfold isOverloaded. rewrite Hm1, Hm2. cbn [orb].
    destruct (codeOf error) as [c|].
    - destruct (Z.eqb_spec c 503) as [->|_]; [congruence|].
      cbn [orb]. destruct (statusOf error) as [s|]; [|reflexivity].
      unfold jsstring_eqb.
      destruct (list_eq_dec N.eq_dec s (js "UNAVAILABLE")) as [->|_];
        [congruence | reflexivity].
    - cbn [orb]. destruct (statusOf error) as [s|]; [|reflexivity].
      unfold jsstring_eqb.
      destruct (list_eq_dec N.eq_dec s (js "UNAVAILABLE")) as [->|_];
        [congruence | reflexivity]. }
  rewrite Hno. reflexivity.
Qed.

Lemma withRetry_non_transient_propagates_witness :
  withRetry (alwaysFails (T := nat) billingError) 3 2000 start
    = (Rejected billingError, {| calls := 1; sleeps := [] |}).
Proof.
  apply (@withRetry_non_transient_propagates nat
           (alwaysFails billingError) 3 2000 billingError).
  - reflexivity.
  - reflexivity.
  - reflexivity.
  - discriminate.
  - discriminate.
Defined.

(** C10 fails as stated: with a negative budget the operation is still
    invoked once, which is more than [n + 1]. *)
Lemma withRetry_negative_budget_one_call :
  withRetry (alwaysFails (T := nat) overloadedError) (-1) 2000 start
    = (Rejected overloadedError, {| calls := 1; sleeps := [] |})
  /\ ~ (Z.of_nat (calls (snd (withRetry
                               (alwaysFails (T := nat) overloadedError)
                               (-1) 2000 start))) <= -1 + 1)%Z.
Proof.
  assert (H : withRetry (alwaysFails (T := nat) overloadedError) (-1) 2000
                start
              = (Rejected overloadedError, {| calls := 1; sleeps := [] |})).
  { rewrite withRetry_unfold. cbn [calls start alwaysFails].
    rewrite andb_false_r. reflexivity. }
  split; [exact H|]. rewrite H. cbn. lia.
Qed.

(** C10, amended.  [withRetry] is a total function: its recursion is well
    founded on the retry budget, which every recursive call decreases by
    one and which is only made while the budget is positive.  For every
    operation, every budget [n] and every initial delay it settles after
    at least one and at most [max n 0 + 1] invocations, having slept once
    before each invocation but the first. *)
Theorem withRetry_terminates_within_budget :
  forall (T : Type) (operation : nat -> Outcome T) (n delay : Z),
    exists (outcome : Outcome T) (log : Log),
      withRetry operation n delay start = (outcome, log) /\
      1 <= calls log /\
      (Z.of_nat (calls log) <= Z.max n 0 + 1)%Z /\
      List.length (sleeps log) = calls log - 1.
Proof.
  intros T operation n delay.
  assert (Hgen : forall (r : nat) (d : Z) (l : Log),
             exists outcome log,
               withRetry operation (Z.of_nat r) d l = (outcome, log) /\
               calls l + 1 <= calls log <= calls l + r + 1 /\
               List.length (sleeps log) + calls l
                 = List.length (sleeps l) + calls log - 1).
  { induction r as [|r IH]; intros d l; rewrite withRetry_unfold.
    - destruct (operation (calls l)) as [v|e].
      + eexists _, _. split; [reflexivity|]. cbn. lia.
      + rewrite andb_false_r.
        eexists _, _. split; [reflexivity|]. cbn. lia.
    - destruct (operation (calls l)) as [v|e].
      + eexists _, _. split; [reflexivity|]. cbn. lia.
      + destruct (isOverloaded e); cbn [andb].
        * replace (0 <? Z.of_nat (S r))%Z with true
            by (symmetry; apply Z.ltb_lt; lia).
          replace (Z.of_nat (S r) - 1)%Z with (Z.of_nat r) by lia.
          destruct (IH (d * 2)%Z (slept d (called l)))
            as (outcome & log & Hrun & Hcalls & Hsleeps).
          exists outcome, log. split; [exact Hrun|].
          cbn in Hcalls, Hsleeps. rewrite length_app in Hsleeps.
          cbn in Hsleeps. lia.
        * eexists _, _. split; [reflexivity|]. cbn. lia. }
  destruct (Z_lt_le_dec n 0) as [Hneg|Hn].
  - rewrite withRetry_unfold. cbn [calls start].
    replace (0 <? n)%Z with false by (symmetry; apply Z.ltb_ge; lia).
    destruct (operation 0) as [v|e].
    + eexists _, _. split; [reflexivity|]. cbn. lia.
    + rewrite andb_false_r.
      eexists _, _. split; [reflexivity|]. cbn. lia.
  - destruct (Hgen (Z.to_nat n) delay start)
      as (outcome & log & Hrun & Hcalls & Hsleeps).
    rewrite Z2Nat.id in Hrun by exact Hn.
    exists outcome, log. cbn in Hcalls, Hsleeps. repeat split; try lia.
    exact Hrun.
Qed.

(** ** Favorites *)

Lemma jsstring_eqb_refl (s : jsstring) : jsstring_eqb s s = true.
Proof.
  unfold jsstring_eqb. destruct (list_eq_dec N.eq_dec s s); congruence.
Qed.

Lemma filter_hasOtherText_none (text : jsstring) (l : list Quote) :
  existsb (hasText text) (filter (hasOtherText text) l) = false.
Proof.
  induction l as [|fav l IH]; [reflexivity|].
  cbn [filter]. unfold hasOtherText at 1.
  destruct (jsstring_eqb (quote fav) text) eqn:E; cbn [negb].
  - exact IH.
  - cbn [existsb]. unfold hasText at 1. rewrite E. exact IH.
Qed.

Lemma filter_hasOtherText_all (text : jsstring) (l : list Quote) :
  existsb (hasText text) l = false -> filter (hasOtherText text) l = l.
Proof.
  induction l as [|fav l IH]; [reflexivity|].
  cbn [existsb filter]. unfold hasText at 1, hasOtherText at 1.
  destruct (jsstring_eqb (quote fav) text); cbn [orb negb].
  - discriminate.
  - intros H. rewrite (IH H). reflexivity.
Qed.

Lemma filter_hasOtherText_idem (text : jsstring) (l : list Quote) :
  filter (hasOtherText text) (filter (hasOtherText text) l)
    = filter (hasOtherText text) l.
Proof.
  apply filter_hasOtherText_all, filter_hasOtherText_none.
Qed.

(** C3 fails as stated: toggling twice a quote that is already a favorite
    moves it to the front of the list. *)
Lemma toggleFavorite_twice_reorders :
  toggleFavorite seneca (toggleFavorite seneca [epicteto; seneca])
    = [seneca; epicteto]
  /\ toggleFavorite seneca (toggleFavorite seneca [epicteto; seneca])
    <> [epicteto; seneca].
Proof.
  split; [vm_compute; reflexivity|].
  vm_compute. discriminate.
Qed.

(** C3, amended.  Toggling the same quote twice gives back the original
    list, order included, when no favorite had the quote's text; when some
    had, the result is the toggled quote followed by the favorites with
    another text, in their original order. *)
Theorem toggleFavorite_twice :
  forall (prev : list Quote) (q : Quote),
    toggleFavorite q (toggleFavorite q prev)
    = if isQuoteFavorite prev (quote q)
      then q :: filter (hasOtherText (quote q)) prev
      else prev.
Proof.
  intros prev q. unfold isQuoteFavorite, toggleFavorite.
  destruct (existsb (hasText (quote q)) prev) eqn:E.
  - rewrite filter_hasOtherText_none. reflexivity.
  - cbn [existsb]. unfold hasText at 1. rewrite jsstring_eqb_refl.
    cbn [orb filter]. unfold hasOtherText at 1.
    rewrite jsstring_eqb_refl. cbn [negb].
    apply filter_hasOtherText_all. exact E.
Qed.

(** C9.  [toggleFavorite] does not touch the favorites whose text differs
    from the toggled quote's: they are the same entries, in the same order
    and as many times, before and after. *)
Theorem toggleFavorite_frame :
  forall (prev : list Quote) (q : Quote),
    filter (hasOtherText (quote q)) (toggleFavorite q prev)
    = filter (hasOtherText (quote q)) prev.
Proof.
  intros prev q. unfold toggleFavorite.
  destruct (existsb (hasText (quote q)) prev).
  - apply filter_hasOtherText_idem.
  - cbn [filter]. unfold hasOtherText at 1.
    rewrite jsstring_eqb_refl. reflexivity.
Qed.

(** The other entries stay: an entry with another text is in the list
    after the toggle exactly when it was in it before. *)
Lemma toggleFavorite_keeps_others (prev : list Quote) (q fav : Quote) :
  quote fav <> quote q ->
  (In fav prev <-> In fav (toggleFavorite q prev)).
Proof.
  intros Hne.
  assert (Hother : hasOtherText (quote q) fav = true).
  { unfold hasOtherText, jsstring_eqb.
    destruct (list_eq_dec N.eq_dec (quote fav) (quote q));
      [congruence | reflexivity]. }
  assert (Hframe : filter (hasOtherText (quote q)) (toggleFavorite q prev)
                   = filter (hasOtherText (quote q)) prev).
  { unfold toggleFavorite.
    destruct (existsb (hasText (quote q)) prev).
    - apply filter_hasOtherText_idem.
    - cbn [filter]. unfold hasOtherText at 1.
      rewrite jsstring_eqb_refl. reflexivity. }
  split; intros Hin.
  - assert (H : In fav (filter (hasOtherText (quote q)) prev))
      by (apply filter_In; auto).
    rewrite <- Hframe in H. apply filter_In in H. tauto.
  - assert (H : In fav (filter (hasOtherText (quote q))
                          (toggleFavorite q prev)))
      by (apply filter_In; auto).
    rewrite Hframe in H. apply filter_In in H. tauto.
Qed.

(** ** Error messages *)

(** The four kinds of message are told apart by their text. *)
Lemma userMessage_distinct (c1 c2 : Category) (m1 m2 : jsstring) :
  userMessage c1 m1 = userMessage c2 m2 -> c1 = c2.
Proof.
  destruct c1, c2; try reflexivity; intros H; exfalso;
    apply (f_equal (@hd N 0%N)) in H; vm_compute in H; discriminate.
Qed.

(** C7 fails as stated: the missing-credential message is not chosen by
    substring.  An error text that contains API_KEY_MISSING without being
    equal to it gets the unknown-error message. *)
Lemma handleApiError_credential_not_by_substring :
  let err := Error_ (js "Error: API_KEY_MISSING") in
  includes (errorText err) (js "API_KEY_MISSING") = true
  /\ handleApiError err = Some (js "Erro: Error: API_KEY_MISSING")
  /\ handleApiError err
     <> Some (userMessage (categoryBySubstring (errorText err))
                (errorText err)).
Proof.
  cbv zeta. split; [vm_compute; reflexivity|].
  split; [vm_compute; reflexivity|].
  vm_compute. discriminate.
Qed.

(** What [handleApiError] returns for a value that is not [null] or
    [undefined]. *)
Lemma handleApiError_object (err : JsError) :
  handleApiError (ErrorObject err)
  = Some (userMessage (categoryOf (errorText err)) (errorText err)).
Proof.
  unfold handleApiError, categoryOf. cbv zeta.
  set (isKey := jsstring_eqb (errorText err) (js "API_KEY_MISSING")).
  set (isOverload := includes (errorText err) (js "503")
                     || includes (errorText err) (js "overloaded")
                     || includes (errorText err) (js "UNAVAILABLE")).
  set (isQuota := includes (errorText err) (js "429")
                  || includes (errorText err) (js "quota")).
  destruct isKey; [unfold userMessage; reflexivity|].
  destruct isOverload; [unfold userMessage; reflexivity|].
  destruct isQuota; unfold userMessage; reflexivity.
Qed.

(** C7, amended.  For every error value other than [null] and
    [undefined], [handleApiError] returns exactly one of four messages,
    decided by the error's message text (the empty text when there is
    none), first match first: the missing-credential message when the text
    is equal to API_KEY_MISSING; else the overload message when it contains
    503, overloaded or UNAVAILABLE; else the quota message when it contains
    429 or quota; else the unknown-error message.  The four messages are
    distinct texts. *)
Theorem handleApiError_categories :
  forall err : JsError,
    handleApiError (ErrorObject err)
      = Some (userMessage (categoryOf (errorText err)) (errorText err))
    /\ (forall c : Category,
          handleApiError (ErrorObject err)
            = Some (userMessage c (errorText err)) <->
          c = categoryOf (errorText err)).
Proof.
  intros err. pose proof (handleApiError_object err) as Heq.
  split; [exact Heq|].
  intros c. split.
  - intros H. rewrite Heq in H. injection H as H. symmetry.
    exact (userMessage_distinct _ _ _ _ H).
  - intros ->. exact Heq.
Qed.

(** ** Trimming *)

Lemma allWhiteSpace_app (a b : jsstring) :
  allWhiteSpace (a ++ b) = allWhiteSpace a && allWhiteSpace b.
Proof. apply forallb_app. Qed.

Lemma trimStart_app_ws (w s : jsstring) :
  allWhiteSpace w = true -> trimStart (w ++ s) = trimStart s.
Proof.
  induction w as [|c w IH]; cbn; [reflexivity|].
  destruct (isWhiteSpace c); cbn; [exact IH | discriminate].
Qed.

Lemma trimStart_all_ws (w : jsstring) :
  allWhiteSpace w = true -> trimStart w = [].
Proof.
  intros H. rewrite <- (app_nil_r w). rewrite trimStart_app_ws by exact H.
  reflexivity.
Qed.

Lemma trimStart_head (c : N) (s : jsstring) :
  isWhiteSpace c = false -> trimStart (c :: s) = c :: s.
Proof. intros H. cbn. rewrite H. reflexivity. Qed.

Lemma trimEnd_snoc (s : jsstring) (c : N) :
  trimEnd (s ++ [c]) = if isWhiteSpace c then trimEnd s else s ++ [c].
Proof.
  unfold trimEnd. rewrite rev_app_distr. cbn.
  destruct (isWhiteSpace c); [reflexivity|].
  cbn. rewrite rev_involutive. reflexivity.
Qed.

Lemma trimEnd_app_ws (s w : jsstring) :
  allWhiteSpace w = true -> trimEnd (s ++ w) = trimEnd s.
Proof.
  intros H. unfold trimEnd. rewrite rev_app_distr.
  rewrite trimStart_app_ws; [reflexivity|].
  unfold allWhiteSpace in *. rewrite forallb_forall in *.
  intros x Hx. apply H. apply in_rev. exact Hx.
Qed.

(** Trimming a text that starts and ends with a character that is not
    white space, between two runs of white space, leaves that text. *)
Lemma trim_core (w1 w2 mid : jsstring) (c d : N) :
  allWhiteSpace w1 = true -> allWhiteSpace w2 = true ->
  isWhiteSpace c = false -> isWhiteSpace d = false ->
  trim (w1 ++ (c :: mid ++ [d]) ++ w2) = c :: mid ++ [d].
Proof.
  intros H1 H2 Hc Hd. unfold trim.
  rewrite trimStart_app_ws by exact H1.
  cbn [app]. rewrite trimStart_head by exact Hc.
  change (c :: (mid ++ [d]) ++ w2) with ((c :: mid ++ [d]) ++ w2).
  rewrite trimEnd_app_ws by exact H2.
  change (c :: mid ++ [d]) with ((c :: mid) ++ [d]).
  rewrite trimEnd_snoc, Hd. reflexivity.
Qed.

(** White space around a text does not change what trimming leaves. *)
Lemma trim_padded (w1 w2 s : jsstring) :
  allWhiteSpace w1 = true -> allWhiteSpace w2 = true ->
  trim (w1 ++ s ++ w2) = trim s.
Proof.
  intros H1 H2. unfold trim.
  rewrite trimStart_app_ws by exact H1.
  induction s as [|c s IH].
  - cbn [app]. rewrite trimStart_all_ws by exact H2. reflexivity.
  - cbn [app trimStart]. destruct (isWhiteSpace c); [exact IH|].
    change (c :: s ++ w2) with ((c :: s) ++ w2).
    apply trimEnd_app_ws. exact H2.
Qed.

Lemma startsWith_app (p s : jsstring) : startsWith (p ++ s) p = true.
Proof.
  induction p as [|c p IH]; cbn; [reflexivity|].
  rewrite N.eqb_refl. exact IH.
Qed.

Lemma removePrefix_app (p s : jsstring) : removePrefix p (p ++ s) = s.
Proof.
  unfold removePrefix. rewrite startsWith_app.
  induction p as [|c p IH]; cbn; [reflexivity | exact IH].
Qed.

Lemma removeSuffix_app (p s : jsstring) : removeSuffix p (s ++ p) = s.
Proof.
  unfold removeSuffix, endsWith.
  rewrite rev_app_distr, startsWith_app, length_app.
  replace (List.length s + List.length p - List.length p)
    with (List.length s + 0) by lia.
  rewrite firstn_app_2. cbn. apply app_nil_r.
Qed.

(** ** White space and the scanner *)

(** A character that [trim] removes is JSON white space, or it is none of
    the characters the scanner knows outside strings. *)
Lemma isWhiteSpace_cases (c : N) :
  isWhiteSpace c = true ->
  isJsonWs c = true \/ (c = 11 \/ c = 12 \/ 160 <= c)%N.
Proof.
  unfold isWhiteSpace, isJsonWs. intros H.
  destruct (N.le_gt_cases 160 c) as [Hbig|Hsmall]; [right; lia|].
  destruct (N.eq_dec c 11) as [->|H11]; [right; lia|].
  destruct (N.eq_dec c 12) as [->|H12]; [right; lia|].
  left. revert H. cmp_cases; intros; try reflexivity; try discriminate.
Qed.

Lemma stepStart_ws (c : N) :
  isWhiteSpace c = true ->
  stepStart c = Some (LStart, []) \/ stepStart c = None.
Proof.
  intros H. destruct (isWhiteSpace_cases c H) as [Hj|Hother].
  - left. unfold stepStart. rewrite Hj. reflexivity.
  - right. unfold stepStart, isJsonWs, isDigit19.
    cmp_cases; reflexivity.
Qed.

Lemma numStep_ws (ns : numstate) (c : N) :
  isWhiteSpace c = true -> numStep ns c = None.
Proof.
  intros H.
  assert (Hc : (c = 9 \/ c = 10 \/ c = 13 \/ c = 32 \/ c = 11 \/ c = 12
                \/ 160 <= c)%N).
  { destruct (isWhiteSpace_cases c H) as [Hj|Hother]; [|lia].
    revert Hj. unfold isJsonWs. cmp_cases; intros; try discriminate; lia. }
  destruct ns; unfold numStep, isDigit, isDigit19, isExpMark;
    cmp_cases; reflexivity.
Qed.

Lemma literal_char_not_ws (lit : literal) (seen : nat) (e : N) :
  nth_error (literalText lit) seen = Some e -> isWhiteSpace e = false.
Proof.
  destruct lit; vm_compute literalText;
    do 6 (destruct seen as [|seen]; cbn [nth_error];
          [intros [= <-]; reflexivity|]);
    destruct seen; discriminate.
Qed.

(** Reading a character that [trim] removes and then reaching the end of
    the input gives the tokens that the end of the input gives at once. *)
Lemma step_ws_finish (st st' : lexstate) (c : N) (out ts : list token) :
  isWhiteSpace c = true ->
  step st c = Some (st', out) ->
  finish st' = Some ts ->
  finish st = Some (out ++ ts).
Proof.
  intros Hws Hstep Hfin.
  assert (Hc : (c = 9 \/ c = 10 \/ c = 13 \/ c = 32 \/ c = 11 \/ c = 12
                \/ 160 <= c)%N).
  { destruct (isWhiteSpace_cases c Hws) as [Hj|Hother]; [|lia].
    revert Hj. unfold isJsonWs. cmp_cases; intros; try discriminate; lia. }
  destruct st as [|acc|acc|acc todo v|ns acc|lit seen]; cbn [step] in Hstep.
  - destruct (stepStart_ws c Hws) as [E|E]; rewrite E in Hstep;
      [|discriminate].
    injection Hstep as <- <-. exact Hfin.
  - revert Hstep. cmp_cases; intros [= <- <-]; discriminate.
  - revert Hstep. unfold escapeChar. cmp_cases; intros; discriminate.
  - revert Hstep. unfold hexValue. cmp_cases; intros; discriminate.
  - rewrite (numStep_ws ns c Hws) in Hstep.
    cbn [finish]. destruct (numAccepting ns); [|discriminate].
    destruct (stepStart_ws c Hws) as [E|E]; rewrite E in Hstep;
      [|discriminate].
    injection Hstep as <- <-. cbn [finish] in Hfin.
    injection Hfin as <-. reflexivity.
  - destruct (nth_error (literalText lit) seen) as [e|] eqn:E;
      [|discriminate].
    pose proof (literal_char_not_ws lit seen E) as He.
    destruct (N.eqb_spec c e) as [->|_]; [congruence | discriminate].
Qed.

Lemma scan_snoc_ws (c : N) :
  isWhiteSpace c = true ->
  forall (s : jsstring) (st : lexstate) (ts : list token),
    scan st (s ++ [c]) = Some ts -> scan st s = Some ts.
Proof.
  intros Hws. induction s as [|x s IH]; intros st ts H.
  - cbn [app scan] in H. cbn [scan].
    destruct (step st c) as [[st' out]|] eqn:Hstep; [|discriminate].
    destruct (finish st') as [ts'|] eqn:Hfin; [|discriminate].
    injection H as <-.
    exact (step_ws_finish st c Hws Hstep Hfin).
  - cbn [app scan] in H |- *.
    destruct (step st x) as [[st' out]|]; [|discriminate].
    destruct (scan st' (s ++ [c])) as [ts'|] eqn:E; [|discriminate].
    rewrite (IH st' ts' E). exact H.
Qed.

Lemma scan_trimEnd (st : lexstate) (s : jsstring) (ts : list token) :
  scan st s = Some ts -> scan st (trimEnd s) = Some ts.
Proof.
  induction s as [|c s IH] using rev_ind; intros H; [exact H|].
  rewrite trimEnd_snoc. destruct (isWhiteSpace c) eqn:Hws; [|exact H].
  apply IH. exact (scan_snoc_ws c Hws s st H).
Qed.

Lemma scan_trimStart (s : jsstring) (ts : list token) :
  scan LStart s = Some ts -> scan LStart (trimStart s) = Some ts.
Proof.
  induction s as [|c s IH]; intros H; [exact H|].
  cbn [trimStart]. destruct (isWhiteSpace c) eqn:Hws; [|exact H].
  apply IH. cbn [scan step] in H.
  destruct (stepStart_ws c Hws) as [E|E]; rewrite E in H; [|discriminate].
  destruct (scan LStart s) as [ts'|]; [|discriminate].
  exact H.
Qed.

(** [JSON.parse] does not see the white space that [trim] removes around
    a well-formed text. *)
Lemma JSON_parse_trim (s : jsstring) (v : json) :
  JSON_parse s = Some v -> JSON_parse (trim s) = Some v.
Proof.
  unfold JSON_parse, tokens, trim. intros H.
  destruct (scan LStart s) as [ts|] eqn:E; [|discriminate].
  rewrite (scan_trimEnd LStart (trimStart s) (scan_trimStart s E)).
  exact H.
Qed.

(** A well-formed text is not empty and does not start with the letter j,
    so it cannot be taken for the language tag of a fence. *)
Lemma JSON_parse_head (s rest : jsstring) (v : json) :
  JSON_parse s = Some v -> startsWith (s ++ rest) (js "json") = false.
Proof.
  unfold JSON_parse, tokens. intros H.
  destruct s as [|c s]; [cbn in H; discriminate|].
  vm_compute (js "json"). cbn [app startsWith].
  destruct (N.eqb_spec 106 c) as [<-|_]; [|reflexivity].
  cbn in H. discriminate.
Qed.

Lemma startsWith_app_both (p s t : jsstring) :
  startsWith (p ++ s) (p ++ t) = startsWith s t.
Proof.
  induction p as [|c p IH]; cbn [app startsWith]; [reflexivity|].
  rewrite N.eqb_refl. exact IH.
Qed.

Lemma padded_payload_head (w P rest : jsstring) (v : json) :
  allWhiteSpace w = true ->
  JSON_parse P = Some v ->
  startsWith (w ++ P ++ rest) (js "json") = false.
Proof.
  intros Hw HP. destruct w as [|c w].
  - exact (JSON_parse_head P rest HP).
  - cbn [allWhiteSpace forallb] in Hw.
    apply andb_true_iff in Hw. destruct Hw as [Hc _].
    vm_compute (js "json"). cbn [app startsWith].
    destruct (N.eqb_spec 106 c) as [<-|_]; [|reflexivity].
    vm_compute in Hc. discriminate.
Qed.

Lemma trim_fenced (w1 w2 Y : jsstring) :
  allWhiteSpace w1 = true -> allWhiteSpace w2 = true ->
  trim (w1 ++ (fence ++ Y ++ fence) ++ w2) = fence ++ Y ++ fence.
Proof.
  intros H1 H2.
  assert (E : fence ++ Y ++ fence
              = 96%N :: ([96; 96]%N ++ Y ++ [96; 96]%N) ++ [96%N]).
  { unfold fence. cbn [app]. rewrite <- app_assoc. reflexivity. }
  rewrite E. apply trim_core; auto.
Qed.

Lemma cleanJsonString_nonempty (s : jsstring) :
  s <> [] ->
  cleanJsonString (Some s) =
  trim (if startsWith (trim s) fenceJson then
          removeSuffix fence (removePrefix fenceJson (trim s))
        else if startsWith (trim s) fence then
          removeSuffix fence (removePrefix fence (trim s))
        else trim s).
Proof. destruct s; [congruence | reflexivity]. Qed.

(** What [cleanJsonString] leaves of a fenced payload. *)
Lemma cleanJsonString_fenced (P ws1 ws2 ws3 ws4 opening : jsstring) (v : json) :
  opening = fenceJson \/ opening = fence ->
  allWhiteSpace ws1 = true -> allWhiteSpace ws2 = true ->
  allWhiteSpace ws3 = true -> allWhiteSpace ws4 = true ->
  JSON_parse P = Some v ->
  cleanJsonString
    (Some (ws1 ++ opening ++ ws2 ++ P ++ ws3 ++ fence ++ ws4))
  = trim P.
Proof.
  intros Hopen H1 H2 H3 H4 HP.
  set (X := ws2 ++ P ++ ws3).
  assert (HX : trim X = trim P) by (apply trim_padded; assumption).
  assert (Hin : ws1 ++ opening ++ ws2 ++ P ++ ws3 ++ fence ++ ws4
                = ws1 ++ (opening ++ X ++ fence) ++ ws4).
  { unfold X. rewrite <- !app_assoc. reflexivity. }
  rewrite Hin. clear Hin.
  rewrite cleanJsonString_nonempty.
  2:{ intros E. apply app_eq_nil in E. destruct E as [_ E].
      apply app_eq_nil in E. destruct E as [E _].
      destruct Hopen as [-> | ->]; discriminate E. }
  destruct Hopen as [-> | ->].
  - assert (Ht : trim (ws1 ++ (fenceJson ++ X ++ fence) ++ ws4)
                 = fenceJson ++ X ++ fence).
    { replace (fenceJson ++ X ++ fence)
        with (fence ++ (js "json" ++ X) ++ fence)
        by (unfold fenceJson; rewrite <- !app_assoc; reflexivity).
      apply trim_fenced; assumption. }
    rewrite Ht, startsWith_app, removePrefix_app, removeSuffix_app.
    exact HX.
  - rewrite trim_fenced by assumption.
    assert (Hno : startsWith (fence ++ X ++ fence) fenceJson = false).
    { unfold fenceJson. rewrite startsWith_app_both.
      unfold X. rewrite <- !app_assoc.
      exact (padded_payload_head ws2 P (ws3 ++ fence) H2 HP). }
    rewrite Hno, startsWith_app, removePrefix_app, removeSuffix_app.
    exact HX.
Qed.

(** C5.  For every JSON payload [P] (a text that [JSON.parse] accepts),
    wrapped in a code fence that opens with three backquotes and the json
    tag, or with three backquotes alone, and closes with three backquotes,
    with any white space before the fence, after it, and between the
    fence markers and the payload: what [cleanJsonString] returns parses,
    and to the very value [P] parses to. *)
Theorem cleanJsonString_fenced_parses :
  forall (P ws1 ws2 ws3 ws4 opening : jsstring) (v : json),
    opening = fenceJson \/ opening = fence ->
    allWhiteSpace ws1 = true -> allWhiteSpace ws2 = true ->
    allWhiteSpace ws3 = true -> allWhiteSpace ws4 = true ->
    JSON_parse P = Some v ->
    JSON_parse
      (cleanJsonString
         (Some (ws1 ++ opening ++ ws2 ++ P ++ ws3 ++ fence ++ ws4)))
    = Some v.
Proof.
  intros P ws1 ws2 ws3 ws4 opening v Hopen H1 H2 H3 H4 HP.
  rewrite (cleanJsonString_fenced P ws1 ws2 ws3 ws4 Hopen H1 H2 H3 H4 HP).
  apply JSON_parse_trim. exact HP.
Qed.

Lemma cleanJsonString_fenced_parses_witness :
  JSON_parse
    (cleanJsonString
       (Some (js " " ++ fenceJson ++ [10%N] ++ Samples.quotePayload ++ [10%N]
                ++ fence ++ [10%N])))
  = Some Samples.quoteValue.
Proof.
  apply (@cleanJsonString_fenced_parses Samples.quotePayload (js " ") [10%N] [10%N]
           [10%N] fenceJson Samples.quoteValue).
  - left. reflexivity.
  - reflexivity.
  - reflexivity.
  - reflexivity.
  - reflexivity.
  - vm_compute. reflexivity.
Defined.

(** ** The static fallback *)

Lemma roundSignificand_below (n : Z) :
  (0 <= n <= 6 * 2 ^ 53 - 6)%Z ->
  (0 <= roundSignificand n < 6 * 2 ^ 53)%Z.
Proof.
  intros Hn. unfold roundSignificand.
  change (2 ^ 53)%Z with 9007199254740992%Z in *.
  destruct (Z.lt_ge_cases n 9007199254740992) as [Hsmall|Hbig].
  - assert (Hk : (Z.log2 n - 52 <= 0)%Z).
    { destruct (Z.eq_dec n 0) as [->|Hnz]; [cbn; lia|].
      assert (Z.log2 n < 53)%Z by (apply Z.log2_lt_pow2; lia). lia. }
    apply Z.leb_le in Hk. cbv zeta. rewrite Hk. lia.
  - assert (Hcases : (Z.log2 n = 53 \/ Z.log2 n = 54 \/ Z.log2 n = 55)%Z).
    { assert (53 <= Z.log2 n)%Z by (apply Z.log2_le_pow2; lia).
      assert (Z.log2 n < 56)%Z by (apply Z.log2_lt_pow2; lia). lia. }
    assert (Hlog := Z.log2_spec n ltac:(lia)).
    cbv zeta.
    destruct Hcases as [E|[E|E]]; rewrite E in *;
      cbn [Z.sub Z.add Z.opp Z.pos_sub Pos.pred_double Z.leb Z.compare
           Z.succ_double Z.pred_double Z.double Pos.succ] in *;
      match goal with
      | |- context [(n / ?d)%Z] =>
          let d' := eval vm_compute in d in
          change d with d' in *;
          pose proof (Z.div_mod n d' ltac:(lia)) as Hdm;
          pose proof (Z.mod_pos_bound n d' ltac:(lia)) as Hmod
      end;
      destruct (_ || _)%bool eqn:Hround.
    all: try lia.
    all: apply orb_true_iff in Hround;
      destruct Hround as [Hr|Hr];
      [apply Z.ltb_lt in Hr
      |apply andb_true_iff in Hr; destruct Hr as [Hr _];
       apply Z.eqb_eq in Hr];
      vm_compute (2 ^ _)%Z in *; lia.
Qed.

(** The index that [getRandomFallbackImage] computes is in bounds. *)
Lemma floorOfProduct_in_bounds (r : UnitDouble) :
  isUnitDouble r ->
  (0 <= floorOfProduct r 6 < 6)%Z.
Proof.
  intros [Hm Hs]. unfold floorOfProduct.
  pose proof (roundSignificand_below (n := mantissa r * 6) ltac:(lia))
    as Hround.
  rewrite Z.pow_add_r by lia.
  assert (Hpow : (0 < 2 ^ scale r)%Z) by (apply Z.pow_pos_nonneg; lia).
  change (2 ^ 53)%Z with 9007199254740992%Z in *.
  split.
  - apply Z.div_pos; lia.
  - apply Z.div_lt_upper_bound; nia.
Qed.

Lemma FALLBACK_IMAGES_nonempty (s : jsstring) :
  In s FALLBACK_IMAGES -> s <> [].
Proof.
  intros Hin ->. revert Hin. vm_compute. intuition discriminate.
Qed.

Lemma getRandomFallbackImage_in_list (r : UnitDouble) :
  isUnitDouble r ->
  exists s, getRandomFallbackImage r = Some s /\ In s FALLBACK_IMAGES.
Proof.
  intros Hr. unfold getRandomFallbackImage.
  change (Z.of_nat (List.length FALLBACK_IMAGES)) with 6%Z.
  pose proof (floorOfProduct_in_bounds Hr) as Hidx.
  destruct (nth_error FALLBACK_IMAGES (Z.to_nat (floorOfProduct r 6)))
    as [s|] eqn:E.
  - exists s. split; [reflexivity|]. exact (nth_error_In _ _ E).
  - apply nth_error_None in E.
    change (List.length FALLBACK_IMAGES) with 6 in E. lia.
Qed.

(** ** The fallback chain *)

(** One way the [try] block of the Pexels copy fails: the analysis answers
    with an object, and the image request is refused. *)
Lemma generateWithAi_image_refused (quoteText : jsstring) (w : World)
  (analysis : GenerateContentResponse) (members : list (jsstring * json))
  (aiError : Thrown) :
  fst (withRetry (analysisRequest w quoteText) 3 2000 start)
    = Fulfilled analysis ->
  JSON_parse (cleanJsonString (text analysis)) = Some (JObject members) ->
  fst (withRetry
         (imageRequest w (lookupLast (js "visual_prompt") members))
         3 2000 start) = Rejected aiError ->
  fst (generateWithAi quoteText w) = Rejected aiError.
Proof.
  intros Ha Hv Hi. unfold generateWithAi.
  rewrite Ha, Hv. cbn [getProperty]. rewrite Hi. reflexivity.
Qed.

(** C2.  In the copy of the service that has a stock-photo client: when
    the AI steps of [generateQuoteImage] fail and [fetchPexelsImage],
    called with the search keywords, then returns a URL,
    [generateQuoteImage] resolves with that very URL, whatever value the
    AI steps failed with.  The value of [Math.random()] plays no part: no
    static fallback image is drawn. *)
Theorem generateQuoteImage_prefers_stock_photo :
  forall (env : Env) (aiInstance : option GoogleGenAI) (quoteText : jsstring)
         (w : World) (ai : GoogleGenAI) (error : Thrown)
         (searchKeywords : json) (url : jsstring),
    fst (getAiClient env aiInstance) = Fulfilled ai ->
    generateWithAi quoteText w = (Rejected error, searchKeywords) ->
    fetchPexelsImage env w searchKeywords = Some url ->
    url <> [] ->
    generateQuoteImage env aiInstance quoteText w = Fulfilled (Some url).
Proof.
  intros env aiInstance quoteText w ai error searchKeywords url
         Hai Hfail Hpexels Hurl.
  unfold generateQuoteImage. rewrite Hai, Hfail. cbv zeta.
  rewrite Hpexels.
  destruct url as [|c url]; [congruence | reflexivity].
Qed.

Lemma generateQuoteImage_prefers_stock_photo_witness :
  generateQuoteImage Samples.configured None (js "Conhece-te a ti mesmo.")
    Samples.stockPhotoFound
  = Fulfilled (Some Samples.stockUrl).
Proof.
  apply (@generateQuoteImage_prefers_stock_photo Samples.configured None
           (js "Conhece-te a ti mesmo.") Samples.stockPhotoFound
           {| apiKey := js "AIza-sample-key" |} billingError
           (JString (js "time sand sunset")) Samples.stockUrl).
  - vm_compute. reflexivity.
  - vm_compute. reflexivity.
  - vm_compute. reflexivity.
  - vm_compute. discriminate.
Defined.

(** When the value the AI steps failed with is not [null] or [undefined]
    and [fetchPexelsImage] gives nothing, the Pexels copy resolves with an
    entry of [FALLBACK_IMAGES]. *)
Lemma PexelsChain_static_fallback
  (env : Env) (aiInstance : option GoogleGenAI) (quoteText : jsstring)
  (w : World) (ai : GoogleGenAI) (error : JsError) (searchKeywords : json) :
  fst (getAiClient env aiInstance) = Fulfilled ai ->
  generateWithAi quoteText w = (Rejected (ErrorObject error), searchKeywords) ->
  truthy_opt (fetchPexelsImage env w searchKeywords) = false ->
  isUnitDouble (random w) ->
  exists s : jsstring,
    generateQuoteImage env aiInstance quoteText w = Fulfilled (Some s)
    /\ In s FALLBACK_IMAGES.
Proof.
  intros Hai Hfail Hpexels Hr.
  destruct (getRandomFallbackImage_in_list Hr) as (s & Hs & Hin).
  exists s. split; [|exact Hin].
  unfold generateQuoteImage. rewrite Hai, Hfail. cbv zeta.
  rewrite Hpexels, Hs. reflexivity.
Qed.

(** When the value the AI steps failed with is [null] or [undefined] and
    [fetchPexelsImage] gives nothing, the Pexels copy rejects: the read of
    [error.message] comes before [getRandomFallbackImage()]. *)
Lemma PexelsChain_nullish_rejects
  (env : Env) (aiInstance : option GoogleGenAI) (quoteText : jsstring)
  (w : World) (ai : GoogleGenAI) (searchKeywords : json) :
  fst (getAiClient env aiInstance) = Fulfilled ai ->
  generateWithAi quoteText w = (Rejected Nullish, searchKeywords) ->
  truthy_opt (fetchPexelsImage env w searchKeywords) = false ->
  generateQuoteImage env aiInstance quoteText w
    = Rejected (raised (engine w) (ReadOfNullish (js "message"))).
Proof.
  intros Hai Hfail Hpexels.
  unfold generateQuoteImage. rewrite Hai, Hfail. cbv zeta.
  rewrite Hpexels. reflexivity.
Qed.

(** C6 does not hold of the code when the AI step fails with [undefined].
    With a client in place, the analysis answers, the image request
    rejects with [undefined] and Pexels answers with an HTTP error: both
    steps have failed, and [generateQuoteImage] does not resolve with an
    entry of [FALLBACK_IMAGES] but rejects with the [TypeError] that
    reading [error.message] raises, before [getRandomFallbackImage()] is
    reached. *)
Theorem generateQuoteImage_static_fallback_missed :
  let quoteText := js "Conhece-te a ti mesmo." in
  let w := Samples.imageRejectsWithUndefined in
  fst (getAiClient Samples.configured None)
    = Fulfilled {| apiKey := js "AIza-sample-key" |}
  /\ generateWithAi quoteText w
     = (Rejected Nullish, JString (js "time sand sunset"))
  /\ fetchPexelsImage Samples.configured w (JString (js "time sand sunset"))
     = None
  /\ generateQuoteImage Samples.configured None quoteText w
     = Rejected (raised (engine w) (ReadOfNullish (js "message")))
  /\ (forall s : jsstring,
        In s FALLBACK_IMAGES ->
        generateQuoteImage Samples.configured None quoteText w
        <> Fulfilled (Some s)).
Proof.
  cbv zeta.
  assert (Hai : fst (getAiClient Samples.configured None)
                = Fulfilled {| apiKey := js "AIza-sample-key" |})
    by (vm_compute; reflexivity).
  assert (Hgen : generateWithAi (js "Conhece-te a ti mesmo.")
                   Samples.imageRejectsWithUndefined
                 = (Rejected Nullish, JString (js "time sand sunset")))
    by (vm_compute; reflexivity).
  assert (Hpexels : fetchPexelsImage Samples.configured
                      Samples.imageRejectsWithUndefined
                      (JString (js "time sand sunset")) = None)
    by (vm_compute; reflexivity).
  assert (Hrej : generateQuoteImage Samples.configured None
                   (js "Conhece-te a ti mesmo.")
                   Samples.imageRejectsWithUndefined
                 = Rejected (raised (engine Samples.imageRejectsWithUndefined)
                               (ReadOfNullish (js "message")))).
  { apply (@PexelsChain_nullish_rejects _ _ _ _ _ _ Hai Hgen).
    rewrite Hpexels. reflexivity. }
  repeat (split; [assumption|]).
  intros s _. rewrite Hrej. discriminate.
Qed.

(** Without a client and without an API key the copy with the Pexels chain
    rejects before its [try] block, whatever the external calls would have
    answered. *)
Lemma generateQuoteImage_rejects_without_key :
  generateQuoteImage Samples.unconfigured None (js "Conhece-te a ti mesmo.")
    Samples.stockPhotoFound
  = Rejected (Error_ (js "API_KEY_MISSING")).
Proof. vm_compute. reflexivity. Qed.

(** How the [try] block of the Imagen copy can end with [null] or
    [undefined]: only by one of its two requests rejecting with it. *)
Lemma ImagenOnly_tryBlock_nullish
  (env : Env) (aiInstance : option GoogleGenAI) (quoteText : jsstring)
  (w : ImagenOnly.World) :
  ImagenOnly.tryBlock env aiInstance quoteText w = Rejected Nullish ->
  fst (withRetry (ImagenOnly.descriptionRequest w quoteText) 3 2000 start)
    = Rejected Nullish
  \/ exists visualPrompt : jsstring,
       fst (withRetry (ImagenOnly.imagesRequest w visualPrompt) 3 2000 start)
         = Rejected Nullish.
Proof.
  unfold ImagenOnly.tryBlock.
  destruct (getAiClient env aiInstance) as [[ai|e] aiInstance'] eqn:Hai;
    cbn [fst].
  2:{ intros H. exfalso. revert Hai H. unfold getAiClient.
      destruct aiInstance; [discriminate|].
      destruct (API_KEY env) as [[|c key]|]; intros Hai H;
        inversion Hai; subst; discriminate. }
  destruct (fst (withRetry (ImagenOnly.descriptionRequest w quoteText)
                   3 2000 start))
    as [descriptionResponse|e];
    [|intros H; left; injection H as ->; reflexivity].
  destruct (option_map trim (text descriptionResponse))
    as [[|c prompt]|]; try discriminate.
  intros H. right. exists (c :: prompt).
  destruct (fst (withRetry (ImagenOnly.imagesRequest w (c :: prompt))
                   3 2000 start))
    as [response|e]; [|injection H as ->; reflexivity].
  destruct (ImagenOnly.imageBytes response) as [[|b bytes]|]; discriminate.
Qed.

(** The Imagen copy resolves, with a data URI that carries image bytes or
    with an entry of [FALLBACK_IMAGES], unless its [try] block ends with
    [null] or [undefined]; then it rejects. *)
Lemma ImagenOnly_generateQuoteImage_outcome
  (env : Env) (aiInstance : option GoogleGenAI) (quoteText : jsstring)
  (w : ImagenOnly.World) :
  isUnitDouble (ImagenOnly.random w) ->
  match ImagenOnly.tryBlock env aiInstance quoteText w with
  | Rejected Nullish =>
      ImagenOnly.generateQuoteImage env aiInstance quoteText w
      = Rejected (raised (ImagenOnly.engine w) (ReadOfNullish (js "message")))
  | _ =>
      exists image : jsstring,
        ImagenOnly.generateQuoteImage env aiInstance quoteText w
          = Fulfilled (Some image)
        /\ ((exists bytes, image = js "data:image/jpeg;base64," ++ bytes
                           /\ bytes <> [])
            \/ In image FALLBACK_IMAGES)
  end.
Proof.
  intros Hr.
  destruct (getRandomFallbackImage_in_list Hr) as (s & Hs & Hin).
  unfold ImagenOnly.generateQuoteImage.
  destruct (ImagenOnly.tryBlock env aiInstance quoteText w)
    as [image|[|e]] eqn:Htry.
  - revert Htry. unfold ImagenOnly.tryBlock.
    destruct (fst (getAiClient env aiInstance)); [|discriminate].
    destruct (fst (withRetry (ImagenOnly.descriptionRequest w quoteText)
                     3 2000 start))
      as [descriptionResponse|]; [|discriminate].
    destruct (option_map trim (text descriptionResponse))
      as [[|c prompt]|].
    + rewrite Hs. intros H. inversion H; subst.
      exists s. split; [reflexivity | right; exact Hin].
    + destruct (fst (withRetry (ImagenOnly.imagesRequest w (c :: prompt))
                       3 2000 start))
        as [response|]; [|discriminate].
      destruct (ImagenOnly.imageBytes response) as [[|b bytes]|];
        try discriminate.
      intros H. inversion H; subst.
      eexists. split; [reflexivity|]. left.
      exists (b :: bytes). split; [reflexivity | discriminate].
    + rewrite Hs. intros H. inversion H; subst.
      exists s. split; [reflexivity | right; exact Hin].
  - reflexivity.
  - rewrite Hs. exists s. split; [reflexivity | right; exact Hin].
Qed.

(** After a failure in its [try] block with a value other than [null] or
    [undefined] the Imagen copy goes straight to the static images: it has
    no stock-photo client. *)
Lemma ImagenOnly_failure_gives_static (env : Env)
  (aiInstance : option GoogleGenAI) (quoteText : jsstring)
  (w : ImagenOnly.World) (error : JsError) :
  ImagenOnly.tryBlock env aiInstance quoteText w
    = Rejected (ErrorObject error) ->
  ImagenOnly.generateQuoteImage env aiInstance quoteText w
    = Fulfilled (getRandomFallbackImage (ImagenOnly.random w)).
Proof.
  intros H. unfold ImagenOnly.generateQuoteImage. rewrite H. reflexivity.
Qed.

(** The static image the Imagen copy falls back on is an entry of
    [FALLBACK_IMAGES] too. *)
Lemma ImagenOnly_static_fallback (env : Env)
  (aiInstance : option GoogleGenAI) (quoteText : jsstring)
  (w : ImagenOnly.World) (error : JsError) :
  ImagenOnly.tryBlock env aiInstance quoteText w
    = Rejected (ErrorObject error) ->
  isUnitDouble (ImagenOnly.random w) ->
  exists s : jsstring,
    ImagenOnly.generateQuoteImage env aiInstance quoteText w
      = Fulfilled (Some s) /\ In s FALLBACK_IMAGES.
Proof.
  intros H Hr.
  destruct (getRandomFallbackImage_in_list Hr) as (s & Hs & Hin).
  exists s. split; [|exact Hin].
  rewrite (ImagenOnly_failure_gives_static _ _ _ _ H), Hs. reflexivity.
Qed.

(** What the [try] block of the Pexels copy returns is a data URI. *)
Lemma generateWithAi_fulfilled (quoteText : jsstring) (w : World)
  (dataUri : jsstring) (searchKeywords : json) :
  generateWithAi quoteText w = (Fulfilled dataUri, searchKeywords) ->
  exists bytes, dataUri = js "data:image/jpeg;base64," ++ bytes.
Proof.
  unfold generateWithAi. intros H.
  destruct (fst (withRetry (analysisRequest w quoteText) 3 2000 start))
    as [analysis|]; [|discriminate].
  cbv zeta in H.
  destruct (JSON_parse (cleanJsonString (text analysis))) as [v|];
    [|discriminate].
  set (visualPrompt := getProperty v (js "visual_prompt")) in H.
  destruct (fst (withRetry (imageRequest w visualPrompt) 3 2000 start))
    as [response|]; [|destruct v; discriminate].
  destruct (match parts response with
            | Some ps => firstInlineData ps
            | None => None
            end) as [bytes|];
    [|destruct v; discriminate].
  exists bytes. destruct v; try discriminate; congruence.
Qed.

(** How the [try] block of the Pexels copy can end with [null] or
    [undefined]: only by one of its two requests rejecting with it. *)
Lemma generateWithAi_nullish (quoteText : jsstring) (w : World) :
  fst (generateWithAi quoteText w) = Rejected Nullish ->
  fst (withRetry (analysisRequest w quoteText) 3 2000 start)
    = Rejected Nullish
  \/ exists visualPrompt : option json,
       fst (withRetry (imageRequest w visualPrompt) 3 2000 start)
         = Rejected Nullish.
Proof.
  unfold generateWithAi.
  destruct (fst (withRetry (analysisRequest w quoteText) 3 2000 start))
    as [analysis|e]; [|intros H; left; injection H as ->; reflexivity].
  cbv zeta.
  destruct (JSON_parse (cleanJsonString (text analysis))) as [v|];
    [|discriminate].
  intros H. right. exists (getProperty v (js "visual_prompt")).
  destruct (fst (withRetry (imageRequest w (getProperty v (js "visual_prompt")))
                   3 2000 start))
    as [response|e].
  - destruct (match parts response with
              | Some ps => firstInlineData ps
              | None => None
              end); destruct v; discriminate.
  - destruct v; try discriminate; injection H as ->; reflexivity.
Qed.

(** The Pexels copy, once it has a client, resolves with a string that is
    not empty, unless the AI steps failed with [null] or [undefined] and
    Pexels gave nothing; then it rejects. *)
Lemma PexelsChain_generateQuoteImage_outcome
  (env : Env) (aiInstance : option GoogleGenAI) (quoteText : jsstring)
  (w : World) (ai : GoogleGenAI) :
  fst (getAiClient env aiInstance) = Fulfilled ai ->
  isUnitDouble (random w) ->
  (exists s : jsstring,
     generateQuoteImage env aiInstance quoteText w = Fulfilled (Some s)
     /\ s <> [])
  \/ (fst (generateWithAi quoteText w) = Rejected Nullish
      /\ generateQuoteImage env aiInstance quoteText w
         = Rejected (raised (engine w) (ReadOfNullish (js "message")))).
Proof.
  intros Hai Hr.
  destruct (getRandomFallbackImage_in_list Hr) as (s & Hs & Hin).
  pose proof (FALLBACK_IMAGES_nonempty Hin) as Hne.
  unfold generateQuoteImage. rewrite Hai, Hs.
  destruct (generateWithAi quoteText w) as [[dataUri|error] searchKeywords]
    eqn:Hgen.
  - left. exists dataUri. split; [reflexivity|].
    destruct (generateWithAi_fulfilled _ _ Hgen) as (bytes & ->).
    vm_compute (js _). discriminate.
  - cbv zeta.
    destruct (fetchPexelsImage env w searchKeywords) as [[|c url]|];
      cbn [truthy_opt truthy].
    + destruct error as [|e]; [right; split; reflexivity|].
      left. exists s. split; [reflexivity | exact Hne].
    + left. eexists. split; [reflexivity | discriminate].
    + destruct error as [|e]; [right; split; reflexivity|].
      left. exists s. split; [reflexivity | exact Hne].
Qed.

(** The only error [getAiClient] throws. *)
Lemma getAiClient_rejects (env : Env) (aiInstance : option GoogleGenAI)
  (e : Thrown) :
  fst (getAiClient env aiInstance) = Rejected e ->
  e = Error_ (js "API_KEY_MISSING").
Proof.
  unfold getAiClient.
  destruct aiInstance; [discriminate|].
  destruct (API_KEY env) as [[|c key]|]; cbn [fst]; congruence.
Qed.

(** C8 does not hold of the code when a request rejects with [undefined].
    With a client in place, [generateQuoteImage] then rejects in both
    copies of the service: the [catch] block reads [error.message] before
    it returns the static image.  In the copy with the Pexels chain the
    image request rejects and Pexels answers with an HTTP error; in the
    Imagen copy the request for a visual prompt rejects. *)
Theorem generateQuoteImage_rejects_on_undefined :
  let quoteText := js "Conhece-te a ti mesmo." in
  let client := Some {| apiKey := js "AIza-sample-key" |} in
  generateQuoteImage Samples.configured client quoteText
    Samples.imageRejectsWithUndefined
  = Rejected (raised (engine Samples.imageRejectsWithUndefined)
                (ReadOfNullish (js "message")))
  /\ ImagenOnly.generateQuoteImage Samples.configured client quoteText
       Samples.imagenRejectsWithUndefined
     = Rejected (raised (ImagenOnly.engine Samples.imagenRejectsWithUndefined)
                   (ReadOfNullish (js "message"))).
Proof.
  cbv zeta. split; vm_compute; reflexivity.
Qed.

(** * Further properties *)

(** ** The retry wrapper, for every operation *)

(** The shape of every run: some number [j] of transient failures within
    the budget, then the attempt that settles the call. *)
Lemma withRetry_trace (T : Type) (operation : nat -> Outcome T) :
  forall (r : nat) (d : Z) (l : Log),
  exists j : nat,
    j <= r /\
    withRetry operation (Z.of_nat r) d l
      = (operation (calls l + j),
         {| calls := calls l + S j; sleeps := sleeps l ++ backoff d j |}) /\
    (forall k, k < j -> transient (operation (calls l + k)) = true) /\
    (transient (operation (calls l + j)) = true -> j = r).
Proof.
  induction r as [|r IH]; intros d l.
  - exists 0. rewrite withRetry_unfold, Nat.add_0_r. cbn [backoff].
    rewrite app_nil_r, Nat.add_1_r. split; [lia|]. split.
    + destruct (operation (calls l)) as [v|e]; [reflexivity|].
      rewrite andb_false_r. reflexivity.
    + split; [intros k Hk; lia | reflexivity].
  - rewrite withRetry_unfold.
    destruct (operation (calls l)) as [v|e] eqn:E.
    + exists 0. rewrite Nat.add_0_r, E. cbn [backoff].
      rewrite app_nil_r, Nat.add_1_r. split; [lia|].
      split; [reflexivity|]. split; [intros k Hk; lia|].
      cbn. discriminate.
    + destruct (isOverloaded e) eqn:Ho.
      * replace (0 <? Z.of_nat (S r))%Z with true
          by (symmetry; apply Z.ltb_lt; lia).
        replace (Z.of_nat (S r) - 1)%Z with (Z.of_nat r) by lia.
        cbn [andb].
        destruct (IH (d * 2)%Z (slept d (called l)))
          as (j & Hj & Hrun & Hbefore & Hlast).
        cbn [calls sleeps slept called] in Hrun, Hbefore, Hlast.
        exists (S j). split; [lia|]. split.
        { rewrite Hrun. cbn [backoff]. rewrite <- app_assoc.
          cbn [app]. rewrite <- !plus_n_Sm. reflexivity. }
        split.
        { intros k Hk. destruct k as [|k].
          - rewrite Nat.add_0_r, E. exact Ho.
          - rewrite <- plus_n_Sm. apply Hbefore. lia. }
        { rewrite <- plus_n_Sm. intros H. rewrite (Hlast H). reflexivity. }
      * exists 0. rewrite Nat.add_0_r, E. cbn [andb backoff].
        rewrite app_nil_r, Nat.add_1_r. split; [lia|].
        split; [reflexivity|]. split; [intros k Hk; lia|].
        cbn. rewrite Ho. discriminate.
Qed.

Lemma totalDelay_app (a b : list Z) :
  totalDelay (a ++ b) = (totalDelay a + totalDelay b)%Z.
Proof.
  unfold totalDelay. induction a as [|x a IH]; cbn; [reflexivity|].
  rewrite IH. lia.
Qed.

Lemma totalDelay_backoff (d : Z) (j : nat) :
  totalDelay (backoff d j) = (d * (2 ^ Z.of_nat j - 1))%Z.
Proof.
  revert d. induction j as [|j IH]; intros d.
  - cbn. lia.
  - cbn [backoff]. change (totalDelay (d :: backoff (d * 2) j))
      with (d + totalDelay (backoff (d * 2) j))%Z.
    rewrite IH, Nat2Z.inj_succ, Z.pow_succ_r by lia. lia.
Qed.

(** X1.  Whatever the operation, the budget and the delay: [withRetry]
    settles exactly like the last attempt it made; every attempt before
    that one failed with a transient-overload signal; the number of retries
    is within the budget; the delays slept are [delay], [delay * 2],
    [delay * 4], ..., one per retry; and when the call ends on a transient
    failure, the budget is exhausted. *)
Theorem withRetry_settles_like_last_attempt :
  forall (T : Type) (operation : nat -> Outcome T) (retries delay : Z),
  exists j : nat,
    (Z.of_nat j <= Z.max 0 retries)%Z /\
    withRetry operation retries delay start
      = (operation j, {| calls := S j; sleeps := backoff delay j |}) /\
    (forall k, k < j -> transient (operation k) = true) /\
    (transient (operation j) = true -> Z.of_nat j = Z.max 0 retries).
Proof.
  intros T operation retries delay.
  destruct (Z.le_gt_cases retries 0) as [Hneg|Hpos].
  - exists 0. rewrite withRetry_no_budget by exact Hneg.
    split; [lia|]. split; [reflexivity|].
    split; [intros k Hk; lia|]. intros _. lia.
  - destruct (withRetry_trace operation (Z.to_nat retries) delay start)
      as (j & Hj & Hrun & Hbefore & Hlast).
    rewrite Z2Nat.id in Hrun by lia.
    cbn [calls sleeps start Nat.add app] in Hrun, Hbefore, Hlast.
    exists j. split; [lia|]. split; [exact Hrun|].
    split; [exact Hbefore|]. intros H. rewrite (Hlast H). lia.
Qed.

(** X2.  The time [withRetry] spends sleeping: with a delay that is not
    negative, the delays slept add up to [delay * (2 ^ j - 1)] for the [j]
    retries made, hence to at most [delay * (2 ^ retries - 1)]; with the
    defaults (3 retries from 2000 ms) that is at most 14 seconds. *)
Theorem withRetry_total_delay_bounded :
  forall (T : Type) (operation : nat -> Outcome T) (retries delay : Z),
    (0 <= delay)%Z ->
    (0 <= retries)%Z ->
    let log := snd (withRetry operation retries delay start) in
    totalDelay (sleeps log)
      = (delay * (2 ^ Z.of_nat (calls log - 1) - 1))%Z
    /\ (0 <= totalDelay (sleeps log) <= delay * (2 ^ retries - 1))%Z.
Proof.
  intros T operation retries delay Hd Hr log. subst log.
  destruct (withRetry_trace operation (Z.to_nat retries) delay start)
    as (j & Hj & Hrun & _ & _).
  rewrite Z2Nat.id in Hrun by lia. rewrite Hrun.
  cbn [snd calls sleeps start Nat.add app Nat.sub].
  rewrite Nat.sub_0_r, totalDelay_backoff. split; [reflexivity|].
  assert (Hpow : (1 <= 2 ^ Z.of_nat j <= 2 ^ retries)%Z).
  { split.
    - assert (0 < 2 ^ Z.of_nat j)%Z by (apply Z.pow_pos_nonneg; lia). lia.
    - apply Z.pow_le_mono_r; lia. }
  split; nia.
Qed.

Lemma withRetry_total_delay_bounded_witness :
  let log := snd (withRetry (alwaysFails (T := nat) overloadedError)
                    3 2000 start) in
  totalDelay (sleeps log)
    = (2000 * (2 ^ Z.of_nat (calls log - 1) - 1))%Z
  /\ (0 <= totalDelay (sleeps log) <= 2000 * (2 ^ 3 - 1))%Z.
Proof.
  apply (@withRetry_total_delay_bounded nat (alwaysFails overloadedError)
           3 2000); lia.
Defined.

(** ** Favorites, continued *)

Lemma jsstring_eqb_eq (a b : jsstring) : jsstring_eqb a b = true <-> a = b.
Proof.
  unfold jsstring_eqb. destruct (list_eq_dec N.eq_dec a b); split;
    congruence.
Qed.

Lemma jsstring_eqb_neq (a b : jsstring) : jsstring_eqb a b = false <-> a <> b.
Proof.
  unfold jsstring_eqb. destruct (list_eq_dec N.eq_dec a b); split;
    congruence.
Qed.

Lemma existsb_hasText_In (text : jsstring) (l : list Quote) :
  existsb (hasText text) l = true <-> In text (map quote l).
Proof.
  rewrite existsb_exists, in_map_iff. unfold hasText.
  split; intros (fav & H1 & H2).
  - exists fav. split; [apply jsstring_eqb_eq; exact H2 | exact H1].
  - exists fav. split; [exact H2 | apply jsstring_eqb_eq; exact H1].
Qed.

Lemma existsb_filter_other (t text : jsstring) (l : list Quote) :
  t <> text ->
  existsb (hasText t) (filter (hasOtherText text) l) = existsb (hasText t) l.
Proof.
  intros Hne. induction l as [|fav l IH]; [reflexivity|].
  cbn [filter existsb]. unfold hasOtherText at 1.
  destruct (jsstring_eqb (quote fav) text) eqn:E; cbn [negb].
  - apply jsstring_eqb_eq in E. rewrite IH.
    replace (hasText t fav) with false; [reflexivity|].
    symmetry. unfold hasText. apply jsstring_eqb_neq. congruence.
  - cbn [existsb]. rewrite IH. reflexivity.
Qed.

Lemma filter_hasOtherText_unique (text : jsstring) (prev : list Quote) :
  NoDup (map quote prev) ->
  NoDup (map quote (filter (hasOtherText text) prev)).
Proof.
  intros H. induction prev as [|q0 prev IH]; [exact H|].
  inversion H as [|y ys Hnotin Hnodup]; subst.
  cbn [filter]. destruct (hasOtherText text q0); [|exact (IH Hnodup)].
  cbn [map]. constructor; [|exact (IH Hnodup)].
  intros Hin. apply Hnotin. apply in_map_iff in Hin.
  destruct Hin as (z & Hz & Hzin). apply filter_In in Hzin.
  apply in_map_iff. exists z. tauto.
Qed.

Lemma toggleFavorite_unique_step (q : Quote) (prev : list Quote) :
  NoDup (map quote prev) -> NoDup (map quote (toggleFavorite q prev)).
Proof.
  intros H. unfold toggleFavorite.
  destruct (existsb (hasText (quote q)) prev) eqn:E.
  - apply filter_hasOtherText_unique. exact H.
  - cbn [map]. constructor; [|exact H].
    intros Hin. apply existsb_hasText_In in Hin. congruence.
Qed.

(** X3.  Toggling really toggles: the quote's text is a favorite after
    [toggleFavorite] exactly when it was not one before. *)
Theorem toggleFavorite_flips_status :
  forall (prev : list Quote) (q : Quote),
    isQuoteFavorite (toggleFavorite q prev) (quote q)
    = negb (isQuoteFavorite prev (quote q)).
Proof.
  intros prev q. unfold isQuoteFavorite, toggleFavorite.
  destruct (existsb (hasText (quote q)) prev) eqn:E; cbn [negb].
  - apply filter_hasOtherText_none.
  - cbn [existsb]. unfold hasText at 1. rewrite jsstring_eqb_refl.
    reflexivity.
Qed.

(** X4.  Toggling a quote does not change whether any other text is a
    favorite. *)
Theorem toggleFavorite_keeps_other_status :
  forall (prev : list Quote) (q : Quote) (text : jsstring),
    text <> quote q ->
    isQuoteFavorite (toggleFavorite q prev) text
    = isQuoteFavorite prev text.
Proof.
  intros prev q text Hne. unfold isQuoteFavorite, toggleFavorite.
  destruct (existsb (hasText (quote q)) prev).
  - apply existsb_filter_other. exact Hne.
  - cbn [existsb].
    replace (hasText text q) with false; [reflexivity|].
    symmetry. unfold hasText. apply jsstring_eqb_neq. congruence.
Qed.

Lemma toggleFavorite_keeps_other_status_witness :
  isQuoteFavorite (toggleFavorite seneca [epicteto]) (quote epicteto)
  = isQuoteFavorite [epicteto] (quote epicteto).
Proof.
  apply (@toggleFavorite_keeps_other_status [epicteto] seneca
           (quote epicteto)).
  vm_compute. discriminate.
Defined.

(** X5.  Favorites that hold each text at most once keep doing so through
    any sequence of toggles; in particular every list built from the empty
    list by toggles holds each text at most once. *)
Theorem toggleFavorite_keeps_texts_unique :
  forall (prev : list Quote) (toggled : list Quote),
    NoDup (map quote prev) ->
    NoDup (map quote
             (fold_left (fun favorites q => toggleFavorite q favorites)
                toggled prev)).
Proof.
  intros prev toggled. revert prev.
  induction toggled as [|q toggled IH]; intros prev H; [exact H|].
  cbn [fold_left]. apply IH. apply toggleFavorite_unique_step. exact H.
Qed.

Lemma toggleFavorite_keeps_texts_unique_witness :
  NoDup (map quote
           (fold_left (fun favorites q => toggleFavorite q favorites)
              [seneca; epicteto; seneca; seneca] [])).
Proof.
  apply (@toggleFavorite_keeps_texts_unique [] [seneca; epicteto; seneca; seneca]).
  constructor.
Defined.

(** X6.  Three toggles of the same quote are one toggle. *)
Theorem toggleFavorite_thrice :
  forall (prev : list Quote) (q : Quote),
    toggleFavorite q (toggleFavorite q (toggleFavorite q prev))
    = toggleFavorite q prev.
Proof.
  intros prev q.
  assert (Hq : hasText (quote q) q = true)
    by (unfold hasText; apply jsstring_eqb_refl).
  assert (Hq' : hasOtherText (quote q) q = false)
    by (unfold hasOtherText; rewrite jsstring_eqb_refl; reflexivity).
  destruct (existsb (hasText (quote q)) prev) eqn:E.
  - set (others := filter (hasOtherText (quote q)) prev).
    assert (Hnone : existsb (hasText (quote q)) others = false)
      by apply filter_hasOtherText_none.
    assert (T1 : toggleFavorite q prev = others)
      by (unfold toggleFavorite; rewrite E; reflexivity).
    assert (T2 : toggleFavorite q others = q :: others)
      by (unfold toggleFavorite; rewrite Hnone; reflexivity).
    rewrite T1, T2. unfold toggleFavorite. cbn [existsb]. rewrite Hq.
    cbn [orb filter]. rewrite Hq'.
    apply filter_hasOtherText_all. exact Hnone.
  - assert (T1 : toggleFavorite q prev = q :: prev)
      by (unfold toggleFavorite; rewrite E; reflexivity).
    assert (T2 : toggleFavorite q (q :: prev) = prev).
    { unfold toggleFavorite. cbn [existsb]. rewrite Hq.
      cbn [orb filter]. rewrite Hq'.
      apply filter_hasOtherText_all. exact E. }
    rewrite T1, T2. exact T1.
Qed.

(** ** Error messages, continued *)

(** X7.  The two classifiers agree on messages: an error that [withRetry]
    retries because its message contains 'overloaded' or '503' is shown
    to the user, once the retries are exhausted, with the overload
    message. *)
Theorem handleApiError_reports_retried_overload :
  forall err : JsError,
    message_includes err (js "overloaded")
    || message_includes err (js "503") = true ->
    isOverloaded err = true /\
    handleApiError err = Some (userMessage Overload (errorText err)).
Proof.
  intros err H. split.
  - unfold isOverloaded.
    destruct (message_includes err (js "overloaded")
              || message_includes err (js "503")); [reflexivity|].
    discriminate.
  - rewrite handleApiError_object. do 2 f_equal.
    unfold message_includes in H. cbn [messageOf] in H.
    unfold errorText, categoryOf.
    destruct (message err) as [m|]; [|discriminate].
    destruct (jsstring_eqb m (js "API_KEY_MISSING")) eqn:Ekey.
    + apply jsstring_eqb_eq in Ekey. subst m.
      vm_compute in H. discriminate.
    + destruct (includes m (js "503")); [reflexivity|].
      destruct (includes m (js "overloaded")); [reflexivity|].
      discriminate.
Qed.

Lemma handleApiError_reports_retried_overload_witness :
  isOverloaded overloadedError = true /\
  handleApiError overloadedError
  = Some (userMessage Overload (errorText overloadedError)).
Proof.
  apply (@handleApiError_reports_retried_overload overloadedError).
  vm_compute. reflexivity.
Defined.

(** A text found after a prefix that does not hold its first character
    is found in what follows the prefix. *)
Lemma includes_after_prefix (pre s p : jsstring) (c : N) :
  (forall x, In x pre -> x <> c) ->
  includes (pre ++ s) (c :: p) = includes s (c :: p).
Proof.
  intros Hfresh. induction pre as [|x pre IH]; [reflexivity|].
  cbn [app]. cbn [includes startsWith].
  destruct (N.eqb_spec c x) as [->|_].
  - exfalso. apply (Hfresh x); [left; reflexivity | reflexivity].
  - cbn [andb orb]. apply IH. intros y Hy. apply Hfresh. right. exact Hy.
Qed.

(** X8.  The error panel offers its reload button for every overload and
    every quota message, never for the missing-credential message, and for
    an unknown-error message exactly when the error text itself contains
    'demanda' or 'Limite'. *)
Theorem showsRetryButton_by_category :
  forall err : JsError,
    exists shown : jsstring,
      handleApiError err = Some shown
      /\ AppView.showsRetryButton shown
         = match categoryOf (errorText err) with
           | Overload | Quota => true
           | MissingCredential => false
           | Unknown =>
               includes (errorText err) (js "demanda")
               || includes (errorText err) (js "Limite")
           end.
Proof.
  intros err. rewrite handleApiError_object.
  eexists. split; [reflexivity|].
  destruct (categoryOf (errorText err)).
  - vm_compute. reflexivity.
  - vm_compute. reflexivity.
  - vm_compute. reflexivity.
  - unfold AppView.showsRetryButton, userMessage.
    assert (Hd : js "demanda" = 100%N :: js "emanda")
      by (vm_compute; reflexivity).
    assert (Hl : js "Limite" = 76%N :: js "imite")
      by (vm_compute; reflexivity).
    assert (He : js "Erro: " = [69; 114; 114; 111; 58; 32]%N)
      by (vm_compute; reflexivity).
    rewrite Hd, Hl, He.
    rewrite !includes_after_prefix
      by (cbn [In]; intros x Hx; intuition (subst; discriminate)).
    destruct (errorText err) as [|c m]; [|reflexivity].
    vm_compute. reflexivity.
Qed.

(** ** The client and its key *)

(** X9.  The client is a singleton: once [getAiClient] has returned a
    client, every later call returns that same client and keeps it,
    whatever the environment has become. *)
Theorem getAiClient_singleton :
  forall (env env' : Env) (aiInstance : option GoogleGenAI)
         (ai : GoogleGenAI),
    fst (getAiClient env aiInstance) = Fulfilled ai ->
    getAiClient env' (snd (getAiClient env aiInstance))
    = (Fulfilled ai, Some ai).
Proof.
  intros env env' aiInstance ai H. unfold getAiClient in *.
  destruct aiInstance as [ai0|].
  - cbn in H |- *. congruence.
  - destruct (API_KEY env) as [[|c key]|]; cbn in H |- *;
      try discriminate.
    congruence.
Qed.

Lemma getAiClient_singleton_witness :
  getAiClient Samples.unconfigured
    (snd (getAiClient Samples.configured None))
  = (Fulfilled {| apiKey := js "AIza-sample-key" |},
     Some {| apiKey := js "AIza-sample-key" |}).
Proof.
  apply (@getAiClient_singleton Samples.configured Samples.unconfigured None
           {| apiKey := js "AIza-sample-key" |}).
  vm_compute. reflexivity.
Defined.

(** ** Trimming, continued *)

Lemma trimStart_snoc_keep (s : jsstring) (c : N) :
  isWhiteSpace c = false -> trimStart (s ++ [c]) = trimStart s ++ [c].
Proof.
  intros Hc. induction s as [|x s IH]; cbn [app trimStart].
  - rewrite Hc. reflexivity.
  - destruct (isWhiteSpace x); [exact IH | reflexivity].
Qed.

Lemma trimEnd_cons_keep (c : N) (s : jsstring) :
  isWhiteSpace c = false -> trimEnd (c :: s) = c :: trimEnd s.
Proof.
  intros Hc. unfold trimEnd. cbn [rev].
  rewrite trimStart_snoc_keep by exact Hc.
  rewrite rev_app_distr. reflexivity.
Qed.

(** What [trim] leaves is empty, or starts with a character that is not
    white space. *)
Lemma trim_head (s : jsstring) :
  trim s = [] \/ exists c r, trim s = c :: r /\ isWhiteSpace c = false.
Proof.
  unfold trim. induction s as [|x s IH]; [left; reflexivity|].
  cbn [trimStart]. destruct (isWhiteSpace x) eqn:Hx; [exact IH|].
  right. rewrite trimEnd_cons_keep by exact Hx. eauto.
Qed.

Lemma trimEnd_idempotent (s : jsstring) : trimEnd (trimEnd s) = trimEnd s.
Proof.
  induction s as [|c s IH] using rev_ind; [reflexivity|].
  rewrite trimEnd_snoc. destruct (isWhiteSpace c) eqn:Hc; [exact IH|].
  rewrite trimEnd_snoc, Hc. reflexivity.
Qed.

Lemma trim_idempotent (s : jsstring) : trim (trim s) = trim s.
Proof.
  destruct (trim_head s) as [E|(c & r & E & Hc)].
  - rewrite E. reflexivity.
  - unfold trim at 1. rewrite E. rewrite trimStart_head by exact Hc.
    rewrite <- E. unfold trim. apply trimEnd_idempotent.
Qed.

Lemma trim_all_ws (s : jsstring) : allWhiteSpace s = true -> trim s = [].
Proof.
  intros H. unfold trim. rewrite trimStart_all_ws by exact H. reflexivity.
Qed.

(** Every string is what [trim] leaves of it, between two runs of white
    space. *)
Lemma trim_decompose (s : jsstring) :
  exists a b, s = a ++ trim s ++ b
              /\ allWhiteSpace a = true /\ allWhiteSpace b = true.
Proof.
  assert (Hstart : forall t, exists a, t = a ++ trimStart t
                                       /\ allWhiteSpace a = true).
  { induction t as [|x t IH].
    - exists []. split; reflexivity.
    - cbn [trimStart]. destruct (isWhiteSpace x) eqn:Hx.
      + destruct IH as (a & E & Ha). exists (x :: a). split.
        * cbn [app]. rewrite <- E. reflexivity.
        * cbn [allWhiteSpace forallb]. rewrite Hx. exact Ha.
      + exists []. split; reflexivity. }
  assert (Hend : forall t, exists b, t = trimEnd t ++ b
                                     /\ allWhiteSpace b = true).
  { intros t. destruct (Hstart (rev t)) as (a & E & Ha).
    exists (rev a). split.
    - unfold trimEnd. rewrite <- rev_app_distr, <- E.
      symmetry. apply rev_involutive.
    - unfold allWhiteSpace in *. rewrite forallb_forall in *.
      intros x Hx. apply Ha. apply in_rev. exact Hx. }
  destruct (Hstart s) as (a & Ea & Ha).
  destruct (Hend (trimStart s)) as (b & Eb & Hb).
  exists a, b. unfold trim. rewrite <- Eb. auto.
Qed.

(** ** [cleanJsonString], continued *)

(** X10.  Whatever it is given, [cleanJsonString] returns a text with no
    white space at either end. *)
Theorem cleanJsonString_is_trimmed :
  forall str : option jsstring,
    trim (cleanJsonString str) = cleanJsonString str.
Proof.
  intros [[|c s]|]; try (vm_compute; reflexivity).
  rewrite cleanJsonString_nonempty by discriminate.
  apply trim_idempotent.
Qed.

(** A well-formed text, trimmed, does not start with a backquote. *)
Lemma JSON_parse_trim_no_fence (P : jsstring) (v : json) :
  JSON_parse P = Some v ->
  startsWith (trim P) fenceJson = false /\ startsWith (trim P) fence = false.
Proof.
  intros HP. apply JSON_parse_trim in HP.
  unfold JSON_parse, tokens in HP.
  destruct (trim P) as [|c r]; [cbn in HP; discriminate|].
  assert (Hc : c <> 96%N).
  { intros ->. cbn in HP. discriminate. }
  unfold fenceJson, fence. cbn [app startsWith].
  destruct (N.eqb_spec 96 c) as [E|_]; [congruence|]. split; reflexivity.
Qed.

(** X11.  A payload that is not wrapped in a fence goes through
    [cleanJsonString] unharmed: for every JSON text [P], the result is [P]
    without the white space around it, and parses to the value [P] parses
    to. *)
Theorem cleanJsonString_unwrapped_parses :
  forall (P : jsstring) (v : json),
    JSON_parse P = Some v ->
    cleanJsonString (Some P) = trim P
    /\ JSON_parse (cleanJsonString (Some P)) = Some v.
Proof.
  intros P v HP.
  assert (Hne : P <> []) by (intros ->; cbn in HP; discriminate).
  destruct (JSON_parse_trim_no_fence P HP) as [H1 H2].
  assert (E : cleanJsonString (Some P) = trim P).
  { rewrite cleanJsonString_nonempty by exact Hne.
    rewrite H1, H2. apply trim_idempotent. }
  split; [exact E|]. rewrite E. apply JSON_parse_trim. exact HP.
Qed.

Lemma cleanJsonString_unwrapped_parses_witness :
  cleanJsonString (Some ([10%N] ++ Samples.quotePayload ++ [10%N]))
    = trim ([10%N] ++ Samples.quotePayload ++ [10%N])
  /\ JSON_parse
       (cleanJsonString (Some ([10%N] ++ Samples.quotePayload ++ [10%N])))
     = Some Samples.quoteValue.
Proof.
  apply (@cleanJsonString_unwrapped_parses
           ([10%N] ++ Samples.quotePayload ++ [10%N]) Samples.quoteValue).
  vm_compute. reflexivity.
Defined.

(** No well-formed text ends with a backquote. *)
Lemma scan_snoc_backquote (s : jsstring) :
  forall st : lexstate, scan st (s ++ [96%N]) = None.
Proof.
  induction s as [|x s IH]; intros st.
  - cbn [app scan].
    destruct st as [|acc|acc|acc todo v|ns acc|lit seen].
    + reflexivity.
    + reflexivity.
    + reflexivity.
    + reflexivity.
    + destruct ns; reflexivity.
    + destruct lit; vm_compute literalText;
        do 6 (destruct seen as [|seen]; [reflexivity|]);
        destruct seen; reflexivity.
  - cbn [app scan]. destruct (step st x) as [[st' out]|]; [|reflexivity].
    rewrite IH. reflexivity.
Qed.

Lemma trimEnd_last (s : jsstring) :
  trimEnd s = [] \/ exists r d, trimEnd s = r ++ [d] /\ isWhiteSpace d = false.
Proof.
  induction s as [|c s IH] using rev_ind; [left; reflexivity|].
  rewrite trimEnd_snoc. destruct (isWhiteSpace c) eqn:Hc; [exact IH|].
  right. eauto.
Qed.

(** A well-formed text, trimmed, starts with a character that is neither
    white space nor a backquote, and ends with one. *)
Lemma JSON_parse_trim_shape (P : jsstring) (v : json) :
  JSON_parse P = Some v ->
  exists c mid d,
    (trim P = [c] \/ trim P = c :: mid ++ [d]) /\
    isWhiteSpace c = false /\ c <> 96%N /\
    isWhiteSpace d = false /\ d <> 96%N /\
    (trim P = [c] -> d = c).
Proof.
  intros HP. apply JSON_parse_trim in HP.
  assert (Hscan : scan LStart (trim P) <> None).
  { unfold JSON_parse, tokens in HP.
    destruct (scan LStart (trim P)); [discriminate | discriminate HP]. }
  destruct (trim_head P) as [E|(c & r & E & Hc)].
  { rewrite E in HP. cbn in HP. discriminate. }
  assert (Hc96 : c <> 96%N).
  { intros ->. rewrite E in Hscan. apply Hscan. reflexivity. }
  destruct (trimEnd_last (trimStart P)) as [E'|(r' & d & E' & Hd)].
  { unfold trim in E. congruence. }
  fold (trim P) in E'.
  assert (Hd96 : d <> 96%N).
  { intros ->. rewrite E' in Hscan. apply Hscan. apply scan_snoc_backquote. }
  destruct r' as [|c' r'].
  - exists c, [], c. cbn [app] in E'.
    assert (c = d) by congruence. subst d.
    assert (r = []) by congruence. subst r.
    split; [left; exact E|]. auto.
  - exists c, r', d. cbn [app] in E'.
    assert (c' = c) by congruence. subst c'.
    split; [right; exact E'|].
    repeat split; auto. intros H. rewrite H in E'.
    destruct r'; discriminate.
Qed.

Lemma endsWith_fence_last (t : jsstring) (d : N) :
  d <> 96%N -> endsWith (t ++ [d]) fence = false.
Proof.
  intros Hd. unfold endsWith, fence. rewrite rev_app_distr.
  cbn [rev app startsWith].
  destruct (N.eqb_spec 96 d); [congruence | reflexivity].
Qed.

(** A trimmed well-formed text as a first character, a middle and a last
    character (the middle and last are empty for a one-character text). *)
Lemma JSON_parse_trim_ends (P : jsstring) (v : json) :
  JSON_parse P = Some v ->
  exists c d front back,
    trim P = c :: back /\ trim P = front ++ [d] /\
    isWhiteSpace c = false /\ c <> 96%N /\
    isWhiteSpace d = false /\ d <> 96%N.
Proof.
  intros HP.
  destruct (JSON_parse_trim_shape P HP)
    as (c & mid & d & [E|E] & Hc & Hc96 & Hd & Hd96 & Hone).
  - exists c, c, [], []. rewrite E. auto 10.
  - exists c, d, (c :: mid), (mid ++ [d]). rewrite E. auto 10.
Qed.

(** X12.  The closing fence is optional: for every JSON payload [P] after
    an opening fence (with or without the json tag) that is never closed,
    with any white space around, [cleanJsonString] still returns [P]
    trimmed, which parses to the value [P] parses to. *)
Theorem cleanJsonString_unclosed_fence_parses :
  forall (P ws1 ws2 ws3 opening : jsstring) (v : json),
    opening = fenceJson \/ opening = fence ->
    allWhiteSpace ws1 = true -> allWhiteSpace ws2 = true ->
    allWhiteSpace ws3 = true ->
    JSON_parse P = Some v ->
    cleanJsonString (Some (ws1 ++ opening ++ ws2 ++ P ++ ws3)) = trim P
    /\ JSON_parse (cleanJsonString (Some (ws1 ++ opening ++ ws2 ++ P ++ ws3)))
       = Some v.
Proof.
  intros P ws1 ws2 ws3 opening v Hopen H1 H2 H3 HP.
  assert (Hgoal : cleanJsonString (Some (ws1 ++ opening ++ ws2 ++ P ++ ws3))
                  = trim P).
  2:{ split; [exact Hgoal|]. rewrite Hgoal. apply JSON_parse_trim.
      exact HP. }
  destruct (trim_decompose P) as (a & b & EP & Ha & Hb).
  destruct (JSON_parse_trim_ends P HP)
    as (c & d & front & back & Ec & Ed & Hc & Hc96 & Hd & Hd96).
  set (core := trim P) in *.
  assert (Hcore : JSON_parse core = Some v)
    by (apply JSON_parse_trim; exact HP).
  set (pad := ws2 ++ a).
  assert (Hpad : allWhiteSpace pad = true).
  { unfold pad. rewrite allWhiteSpace_app, H2, Ha. reflexivity. }
  assert (Htail : allWhiteSpace (b ++ ws3) = true).
  { rewrite allWhiteSpace_app, Hb, H3. reflexivity. }
  assert (Hin : ws1 ++ opening ++ ws2 ++ P ++ ws3
                = ws1 ++ (opening ++ pad ++ core) ++ (b ++ ws3)).
  { unfold pad. rewrite EP at 1. rewrite <- !app_assoc. reflexivity. }
  rewrite Hin. clear Hin.
  assert (Htrim : trim (ws1 ++ (opening ++ pad ++ core) ++ (b ++ ws3))
                  = opening ++ pad ++ core).
  { assert (E : exists mid, opening ++ pad ++ core = 96%N :: mid ++ [d]).
    { rewrite Ed.
      destruct Hopen as [-> | ->]; unfold fenceJson, fence; cbn [app].
      - exists ([96; 96]%N ++ js "json" ++ pad ++ front).
        rewrite <- !app_assoc. reflexivity.
      - exists ([96; 96]%N ++ pad ++ front).
        rewrite <- !app_assoc. reflexivity. }
    destruct E as (mid & E). rewrite E.
    apply trim_core; auto. }
  rewrite cleanJsonString_nonempty.
  2:{ intros E. apply app_eq_nil in E. destruct E as [_ E].
      apply app_eq_nil in E. destruct E as [E _].
      apply app_eq_nil in E. destruct E as [E _].
      destruct Hopen as [-> | ->]; discriminate E. }
  rewrite Htrim.
  assert (Hkeep : removeSuffix fence (pad ++ core) = pad ++ core).
  { unfold removeSuffix. rewrite Ed, app_assoc.
    rewrite endsWith_fence_last by exact Hd96. reflexivity. }
  assert (Hfinal : trim (pad ++ core) = core).
  { rewrite <- (app_nil_r core) at 1.
    rewrite trim_padded by (auto; reflexivity).
    apply trim_idempotent. }
  destruct Hopen as [-> | ->].
  - rewrite startsWith_app, removePrefix_app, Hkeep. exact Hfinal.
  - assert (Hno : startsWith (fence ++ pad ++ core) fenceJson = false).
    { unfold fenceJson. rewrite startsWith_app_both.
      rewrite <- (app_nil_r core).
      exact (padded_payload_head pad core [] Hpad Hcore). }
    rewrite Hno, startsWith_app, removePrefix_app, Hkeep. exact Hfinal.
Qed.

Lemma cleanJsonString_unclosed_fence_parses_witness :
  cleanJsonString
    (Some ([] ++ fenceJson ++ [10%N] ++ Samples.quotePayload ++ [10%N]))
  = trim Samples.quotePayload
  /\ JSON_parse
       (cleanJsonString
          (Some ([] ++ fenceJson ++ [10%N] ++ Samples.quotePayload
                   ++ [10%N])))
     = Some Samples.quoteValue.
Proof.
  apply (@cleanJsonString_unclosed_fence_parses Samples.quotePayload []
           [10%N] [10%N] fenceJson Samples.quoteValue).
  - left. reflexivity.
  - reflexivity.
  - reflexivity.
  - reflexivity.
  - vm_compute. reflexivity.
Defined.

(** X13.  A closing fence is only removed together with an opening one:
    for every JSON payload [P] followed by a closing fence and not
    preceded by an opening fence, what [cleanJsonString] returns still
    ends with the fence, and [JSON.parse] refuses it. *)
Theorem cleanJsonString_lone_closing_fence_fails :
  forall (P ws1 ws3 ws4 : jsstring) (v : json),
    allWhiteSpace ws1 = true -> allWhiteSpace ws3 = true ->
    allWhiteSpace ws4 = true ->
    JSON_parse P = Some v ->
    endsWith (cleanJsonString (Some (ws1 ++ P ++ ws3 ++ fence ++ ws4))) fence
      = true
    /\ JSON_parse (cleanJsonString (Some (ws1 ++ P ++ ws3 ++ fence ++ ws4)))
       = None.
Proof.
  intros P ws1 ws3 ws4 v H1 H3 H4 HP.
  destruct (trim_decompose P) as (a & b & EP & Ha & Hb).
  destruct (JSON_parse_trim_ends P HP)
    as (c & d & front & back & Ec & Ed & Hc & Hc96 & Hd & Hd96).
  set (core := trim P) in *.
  set (kept := core ++ (b ++ ws3) ++ fence).
  assert (Hin : ws1 ++ P ++ ws3 ++ fence ++ ws4
                = (ws1 ++ a) ++ kept ++ ws4).
  { unfold kept. rewrite EP at 1. rewrite <- !app_assoc. reflexivity. }
  assert (Hshape : kept = c :: (back ++ (b ++ ws3) ++ [96; 96]%N) ++ [96%N]).
  { unfold kept, fence. rewrite Ec. cbn [app].
    rewrite <- !app_assoc. reflexivity. }
  assert (Htrim : trim ((ws1 ++ a) ++ kept ++ ws4) = kept).
  { rewrite Hshape. apply trim_core; auto.
    rewrite allWhiteSpace_app, H1, Ha. reflexivity. }
  assert (Hclean : cleanJsonString (Some (ws1 ++ P ++ ws3 ++ fence ++ ws4))
                   = kept).
  { rewrite Hin, cleanJsonString_nonempty.
    2:{ intros E. apply app_eq_nil in E. destruct E as [_ E].
        apply app_eq_nil in E. destruct E as [E _].
        rewrite Hshape in E. discriminate E. }
    rewrite Htrim.
    assert (Hno : startsWith kept fenceJson = false
                  /\ startsWith kept fence = false).
    { rewrite Hshape. unfold fenceJson, fence. cbn [app startsWith].
      destruct (N.eqb_spec 96 c); [congruence|]. split; reflexivity. }
    destruct Hno as [-> ->].
    rewrite <- Htrim at 1. rewrite trim_idempotent. exact Htrim. }
  rewrite Hclean. split.
  - unfold kept, endsWith. rewrite app_assoc, rev_app_distr.
    apply startsWith_app.
  - unfold JSON_parse, tokens. rewrite Hshape.
    change (c :: (back ++ (b ++ ws3) ++ [96; 96]%N) ++ [96%N])
      with ((c :: back ++ (b ++ ws3) ++ [96; 96]%N) ++ [96%N]).
    rewrite scan_snoc_backquote. reflexivity.
Qed.

Lemma cleanJsonString_lone_closing_fence_fails_witness :
  endsWith
    (cleanJsonString
       (Some ([] ++ Samples.quotePayload ++ [10%N] ++ fence ++ [])))
    fence = true
  /\ JSON_parse
       (cleanJsonString
          (Some ([] ++ Samples.quotePayload ++ [10%N] ++ fence ++ [])))
     = None.
Proof.
  apply (@cleanJsonString_lone_closing_fence_fails Samples.quotePayload []
           [10%N] [] Samples.quoteValue).
  - reflexivity.
  - reflexivity.
  - reflexivity.
  - vm_compute. reflexivity.
Defined.

(** ** The injected key *)

Lemma trim_empty_iff (s : jsstring) :
  trim s = [] <-> allWhiteSpace s = true.
Proof.
  split; [|apply trim_all_ws].
  intros E. destruct (trim_decompose s) as (a & b & Es & Ha & Hb).
  rewrite E in Es. cbn [app] in Es. rewrite Es, allWhiteSpace_app, Ha, Hb.
  reflexivity.
Qed.

(** X14.  The key that the build injects never has white space at either
    end. *)
Theorem resolveApiKey_is_trimmed :
  forall (systemKey envKey viteKey : option jsstring) (key : jsstring),
    ViteConfig.resolveApiKey systemKey envKey viteKey = Some key ->
    trim key = key.
Proof.
  intros systemKey envKey viteKey key. unfold ViteConfig.resolveApiKey.
  cbv zeta.
  destruct (ViteConfig.orElse (ViteConfig.orElse systemKey envKey) viteKey)
    as [[|c k]|]; cbn [truthy_opt truthy option_map].
  - intros [= <-]. reflexivity.
  - intros [= <-]. apply trim_idempotent.
  - discriminate.
Qed.

Lemma resolveApiKey_is_trimmed_witness :
  trim (js "AIza-sample-key") = js "AIza-sample-key".
Proof.
  apply (@resolveApiKey_is_trimmed None (Some (js " AIza-sample-key  "))
           None (js "AIza-sample-key")).
  vm_compute. reflexivity.
Defined.

(** X15.  From the configuration to the client: when one of the three
    sources is not empty, the first such source decides.  If it is blank,
    the injected key is empty and [getAiClient] throws API_KEY_MISSING,
    even when a later source holds a key; otherwise the client is built
    with that source, trimmed. *)
Theorem getAiClient_with_resolved_key :
  forall (systemKey envKey viteKey pexelsKey : option jsstring)
         (chosen : jsstring),
    ViteConfig.orElse (ViteConfig.orElse systemKey envKey) viteKey
      = Some chosen ->
    chosen <> [] ->
    getAiClient
      {| API_KEY := ViteConfig.resolveApiKey systemKey envKey viteKey;
         PEXELS_API_KEY := pexelsKey |} None
    = if allWhiteSpace chosen
      then (Rejected (Error_ (js "API_KEY_MISSING")), None)
      else (Fulfilled {| apiKey := trim chosen |},
            Some {| apiKey := trim chosen |}).
Proof.
  intros systemKey envKey viteKey pexelsKey chosen Hchosen Hne.
  unfold ViteConfig.resolveApiKey. cbv zeta. rewrite Hchosen.
  destruct chosen as [|c k]; [congruence|].
  cbn [truthy_opt truthy option_map]. unfold getAiClient. cbn [API_KEY].
  destruct (allWhiteSpace (c :: k)) eqn:Hws.
  - rewrite (proj2 (trim_empty_iff (c :: k)) Hws). reflexivity.
  - destruct (trim (c :: k)) as [|c' k'] eqn:E; [|reflexivity].
    apply trim_empty_iff in E. congruence.
Qed.

Lemma getAiClient_with_resolved_key_witness :
  getAiClient
    {| API_KEY := ViteConfig.resolveApiKey (Some (js "  "))
                    (Some (js "AIza-sample-key")) None;
       PEXELS_API_KEY := None |} None
  = (Rejected (Error_ (js "API_KEY_MISSING")), None).
Proof.
  apply (@getAiClient_with_resolved_key (Some (js "  "))
           (Some (js "AIza-sample-key")) None None (js "  ")).
  - vm_compute. reflexivity.
  - vm_compute. discriminate.
Defined.

(** ** The fallback chain, continued *)

Lemma firstInlineData_truthy (ps : list Part) (bytes : jsstring) :
  firstInlineData ps = Some bytes -> bytes <> [].
Proof.
  induction ps as [|part ps IH]; cbn [firstInlineData]; [discriminate|].
  destruct (inlineData_data part) as [[|c b]|]; cbn [truthy_opt truthy];
    try exact IH.
  intros [= <-]. discriminate.
Qed.

Lemma generateWithAi_data_uri (quoteText : jsstring) (w : World)
  (dataUri : jsstring) :
  fst (generateWithAi quoteText w) = Fulfilled dataUri ->
  exists bytes, dataUri = js "data:image/jpeg;base64," ++ bytes
                /\ bytes <> [].
Proof.
  unfold generateWithAi. intros H.
  destruct (fst (withRetry (analysisRequest w quoteText) 3 2000 start))
    as [analysis|]; [|discriminate].
  destruct (JSON_parse (cleanJsonString (text analysis))) as [v|];
    [|discriminate].
  set (visualPrompt := getProperty v (js "visual_prompt")) in H.
  destruct (fst (withRetry (imageRequest w visualPrompt) 3 2000 start))
    as [response|]; [|destruct v; discriminate].
  destruct (parts response) as [ps|]; [|destruct v; discriminate].
  destruct (firstInlineData ps) as [bytes|] eqn:E;
    [|destruct v; discriminate].
  exists bytes. split; [|exact (firstInlineData_truthy ps E)].
  destruct v; cbn [fst] in H; try discriminate; congruence.
Qed.

(** X16.  The order of the sources in the copy with the Pexels chain.
    Once [getAiClient] has returned a client: when the AI steps succeed,
    [generateQuoteImage] resolves with their data URI; when they fail and
    [fetchPexelsImage] returns a URL that is not empty for the search
    keywords, with that URL; when Pexels gives nothing and the value the AI
    steps failed with is not [null] or [undefined], with an entry of
    [FALLBACK_IMAGES].  When Pexels gives nothing and that value is [null]
    or [undefined], which one of the two AI requests must have rejected
    with, it rejects with the [TypeError] that reading [error.message]
    raises. *)
Theorem generateQuoteImage_source_order :
  forall (env : Env) (aiInstance : option GoogleGenAI) (quoteText : jsstring)
         (w : World) (ai : GoogleGenAI),
    fst (getAiClient env aiInstance) = Fulfilled ai ->
    isUnitDouble (random w) ->
    match fst (generateWithAi quoteText w) with
    | Fulfilled dataUri =>
        generateQuoteImage env aiInstance quoteText w
          = Fulfilled (Some dataUri)
        /\ exists bytes, dataUri = js "data:image/jpeg;base64," ++ bytes
                         /\ bytes <> []
    | Rejected error =>
        match fetchPexelsImage env w (snd (generateWithAi quoteText w)) with
        | Some (c :: url) =>
            generateQuoteImage env aiInstance quoteText w
              = Fulfilled (Some (c :: url))
        | _ =>
            match error with
            | ErrorObject _ =>
                exists image : jsstring,
                  generateQuoteImage env aiInstance quoteText w
                    = Fulfilled (Some image)
                  /\ In image FALLBACK_IMAGES
            | Nullish =>
                generateQuoteImage env aiInstance quoteText w
                  = Rejected (raised (engine w)
                                (ReadOfNullish (js "message")))
                /\ (fst (withRetry (analysisRequest w quoteText) 3 2000
                           start) = Rejected Nullish
                    \/ exists visualPrompt : option json,
                         fst (withRetry (imageRequest w visualPrompt)
                                3 2000 start) = Rejected Nullish)
            end
        end
    end.
Proof.
  intros env aiInstance quoteText w ai Hai Hr.
  destruct (getRandomFallbackImage_in_list Hr) as (s & Hs & Hin).
  unfold generateQuoteImage. rewrite Hai, Hs.
  pose proof (@generateWithAi_data_uri quoteText w) as Huri.
  pose proof (@generateWithAi_nullish quoteText w) as Hnull.
  destruct (generateWithAi quoteText w) as [[dataUri|error] searchKeywords].
  - cbn [fst]. split; [reflexivity|]. apply Huri. reflexivity.
  - cbn [fst snd] in *. cbv zeta.
    destruct (fetchPexelsImage env w searchKeywords) as [[|c url]|];
      cbn [truthy_opt truthy]; [| reflexivity |];
      (destruct error as [|e];
       [split; [reflexivity | apply Hnull; reflexivity]
       | exists s; split; [reflexivity | exact Hin]]).
Qed.

Lemma generateQuoteImage_source_order_witness :
  match fst (generateWithAi (js "Conhece-te a ti mesmo.")
               Samples.imageRejectsWithUndefined) with
  | Fulfilled dataUri =>
      generateQuoteImage Samples.configured None
        (js "Conhece-te a ti mesmo.") Samples.imageRejectsWithUndefined
        = Fulfilled (Some dataUri)
      /\ exists bytes, dataUri = js "data:image/jpeg;base64," ++ bytes
                       /\ bytes <> []
  | Rejected error =>
      match fetchPexelsImage Samples.configured
              Samples.imageRejectsWithUndefined
              (snd (generateWithAi (js "Conhece-te a ti mesmo.")
                      Samples.imageRejectsWithUndefined)) with
      | Some (c :: url) =>
          generateQuoteImage Samples.configured None
            (js "Conhece-te a ti mesmo.") Samples.imageRejectsWithUndefined
            = Fulfilled (Some (c :: url))
      | _ =>
          match error with
          | ErrorObject _ =>
              exists image : jsstring,
                generateQuoteImage Samples.configured None
                  (js "Conhece-te a ti mesmo.")
                  Samples.imageRejectsWithUndefined
                  = Fulfilled (Some image)
                /\ In image FALLBACK_IMAGES
          | Nullish =>
              generateQuoteImage Samples.configured None
                (js "Conhece-te a ti mesmo.")
                Samples.imageRejectsWithUndefined
                = Rejected (raised (engine Samples.imageRejectsWithUndefined)
                              (ReadOfNullish (js "message")))
              /\ (fst (withRetry
                         (analysisRequest Samples.imageRejectsWithUndefined
                            (js "Conhece-te a ti mesmo."))
                         3 2000 start) = Rejected Nullish
                  \/ exists visualPrompt : option json,
                       fst (withRetry
                              (imageRequest Samples.imageRejectsWithUndefined
                                 visualPrompt)
                              3 2000 start) = Rejected Nullish)
          end
      end
  end.
Proof.
  apply (@generateQuoteImage_source_order Samples.configured None
           (js "Conhece-te a ti mesmo.") Samples.imageRejectsWithUndefined
           {| apiKey := js "AIza-sample-key" |}).
  - vm_compute. reflexivity.
  - unfold isUnitDouble. cbn. lia.
Defined.

(** The value of [searchKeywords] when the [try] block ends. *)
Lemma generateWithAi_keywords (quoteText : jsstring) (w : World) :
  snd (generateWithAi quoteText w)
  = match fst (withRetry (analysisRequest w quoteText) 3 2000 start) with
    | Rejected _ => JString (js "abstract nature")
    | Fulfilled analysis =>
        match JSON_parse (cleanJsonString (text analysis)) with
        | None => JString (js "abstract nature")
        | Some JNull => JString (js "abstract nature")
        | Some analysisData =>
            match getProperty analysisData (js "search_keywords") with
            | Some keywords =>
                if truthyValue (Some keywords) then keywords
                else JString (js "nature abstract")
            | None => JString (js "nature abstract")
            end
        end
    end.
Proof.
  unfold generateWithAi. cbv zeta.
  destruct (fst (withRetry (analysisRequest w quoteText) 3 2000 start))
    as [analysis|]; [|reflexivity].
  destruct (JSON_parse (cleanJsonString (text analysis)))
    as [analysisData|]; [|reflexivity].
  destruct analysisData; try reflexivity;
    match goal with
    | |- context [withRetry (imageRequest w ?vp) 3 2000 start] =>
        destruct (fst (withRetry (imageRequest w vp) 3 2000 start))
          as [response|]; [|reflexivity];
        destruct (parts response) as [ps|]; [|reflexivity];
        destruct (firstInlineData ps); reflexivity
    end.
Qed.

(** X17.  The query handed to Pexels is never a falsy value: whatever the
    analysis answered, the search keywords at the end of the [try] block
    are truthy, being the [search_keywords] of the analysis or, when the
    analysis gave none or a falsy one, one of the two default texts.  In
    particular, keywords that are a string (what the response schema asks
    for) are not the empty string.  A truthy value of another kind is
    passed on as it is. *)
Theorem generateWithAi_keywords_truthy :
  forall (quoteText : jsstring) (w : World),
    truthyValue (Some (snd (generateWithAi quoteText w))) = true
    /\ (snd (generateWithAi quoteText w) = JString (js "abstract nature")
        \/ snd (generateWithAi quoteText w) = JString (js "nature abstract")
        \/ exists analysis analysisData,
             fst (withRetry (analysisRequest w quoteText) 3 2000 start)
               = Fulfilled analysis
             /\ JSON_parse (cleanJsonString (text analysis))
                = Some analysisData
             /\ getProperty analysisData (js "search_keywords")
                = Some (snd (generateWithAi quoteText w)))
    /\ (forall query : jsstring,
          snd (generateWithAi quoteText w) = JString query -> query <> []).
Proof.
  intros quoteText w.
  assert (Hstring : forall value : json,
             truthyValue (Some value) = true ->
             forall query : jsstring, value = JString query -> query <> []).
  { intros value Ht query -> ->. vm_compute in Ht. discriminate. }
  enough (H : truthyValue (Some (snd (generateWithAi quoteText w))) = true
              /\ (snd (generateWithAi quoteText w)
                    = JString (js "abstract nature")
                  \/ snd (generateWithAi quoteText w)
                     = JString (js "nature abstract")
                  \/ exists analysis analysisData,
                       fst (withRetry (analysisRequest w quoteText) 3 2000
                              start) = Fulfilled analysis
                       /\ JSON_parse (cleanJsonString (text analysis))
                          = Some analysisData
                       /\ getProperty analysisData (js "search_keywords")
                          = Some (snd (generateWithAi quoteText w)))).
  { destruct H as [Ht Hc]. split; [exact Ht|]. split; [exact Hc|].
    exact (Hstring _ Ht). }
  clear Hstring.
  rewrite generateWithAi_keywords.
  assert (D1 : truthyValue (Some (JString (js "abstract nature"))) = true)
    by (vm_compute; reflexivity).
  assert (D2 : truthyValue (Some (JString (js "nature abstract"))) = true)
    by (vm_compute; reflexivity).
  destruct (fst (withRetry (analysisRequest w quoteText) 3 2000 start))
    as [analysis|]; [|split; [exact D1 | left; reflexivity]].
  destruct (JSON_parse (cleanJsonString (text analysis)))
    as [analysisData|] eqn:Eparse;
    [|split; [exact D1 | left; reflexivity]].
  destruct analysisData;
    [split; [exact D1 | left; reflexivity] | | | | | ];
    match goal with
    | |- context [getProperty ?v (js "search_keywords")] =>
        destruct (getProperty v (js "search_keywords"))
          as [keywords|] eqn:Ek;
        [destruct (truthyValue (Some keywords)) eqn:Et;
         [split; [exact Et|]; right; right;
          eexists; eexists; split; [reflexivity|];
          split; [exact Eparse | exact Ek]
         |split; [exact D2 | right; left; reflexivity]]
        |split; [exact D2 | right; left; reflexivity]]
    end.
Qed.

(** X18.  The copy that only uses Imagen has two sources.  Either
    [generateQuoteImage] resolves, with a data URI that carries image
    bytes or with an entry of [FALLBACK_IMAGES]; or one of its two
    requests rejected with [null] or [undefined] and it rejects with the
    [TypeError] that reading [error.message] raises in its [catch]
    block. *)
Theorem ImagenOnly_generateQuoteImage_sources :
  forall (env : Env) (aiInstance : option GoogleGenAI) (quoteText : jsstring)
         (w : ImagenOnly.World),
    isUnitDouble (ImagenOnly.random w) ->
    (exists image : jsstring,
       ImagenOnly.generateQuoteImage env aiInstance quoteText w
         = Fulfilled (Some image)
       /\ ((exists bytes, image = js "data:image/jpeg;base64," ++ bytes
                          /\ bytes <> [])
           \/ In image FALLBACK_IMAGES))
    \/ (ImagenOnly.generateQuoteImage env aiInstance quoteText w
          = Rejected (raised (ImagenOnly.engine w)
                        (ReadOfNullish (js "message")))
        /\ (fst (withRetry (ImagenOnly.descriptionRequest w quoteText)
                   3 2000 start) = Rejected Nullish
            \/ exists visualPrompt : jsstring,
                 fst (withRetry (ImagenOnly.imagesRequest w visualPrompt)
                        3 2000 start) = Rejected Nullish)).
Proof.
  intros env aiInstance quoteText w Hr.
  pose proof (@ImagenOnly_generateQuoteImage_outcome env aiInstance
                quoteText w Hr) as H.
  pose proof (@ImagenOnly_tryBlock_nullish env aiInstance quoteText w)
    as Hnull.
  destruct (ImagenOnly.tryBlock env aiInstance quoteText w) as [image|[|e]].
  - left. exact H.
  - right. split; [exact H | apply Hnull; reflexivity].
  - left. exact H.
Qed.

Lemma ImagenOnly_generateQuoteImage_sources_witness :
  (exists image : jsstring,
     ImagenOnly.generateQuoteImage Samples.configured None
       (js "Conhece-te a ti mesmo.") Samples.imagenOverloaded
       = Fulfilled (Some image)
     /\ ((exists bytes, image = js "data:image/jpeg;base64," ++ bytes
                        /\ bytes <> [])
         \/ In image FALLBACK_IMAGES))
  \/ (ImagenOnly.generateQuoteImage Samples.configured None
        (js "Conhece-te a ti mesmo.") Samples.imagenOverloaded
        = Rejected (raised (ImagenOnly.engine Samples.imagenOverloaded)
                      (ReadOfNullish (js "message")))
      /\ (fst (withRetry (ImagenOnly.descriptionRequest
                            Samples.imagenOverloaded
                            (js "Conhece-te a ti mesmo."))
                 3 2000 start) = Rejected Nullish
          \/ exists visualPrompt : jsstring,
               fst (withRetry (ImagenOnly.imagesRequest
                                 Samples.imagenOverloaded visualPrompt)
                      3 2000 start) = Rejected Nullish)).
Proof.
  apply (@ImagenOnly_generateQuoteImage_sources Samples.configured None
           (js "Conhece-te a ti mesmo.") Samples.imagenOverloaded).
  unfold isUnitDouble. cbn. lia.
Defined.

(** ** The quote requests *)

Lemma getAiClient_state (env : Env) (aiInstance : option GoogleGenAI)
  (ai : GoogleGenAI) (aiInstance' : option GoogleGenAI) :
  getAiClient env aiInstance = (Fulfilled ai, aiInstance') ->
  aiInstance' = Some ai
  /\ forall env', fst (getAiClient env' aiInstance') = Fulfilled ai.
Proof.
  unfold getAiClient. destruct aiInstance as [ai0|].
  - intros [= <- <-]. split; reflexivity.
  - destruct (API_KEY env) as [[|c key]|]; intros H; try discriminate.
    injection H as <- <-. split; reflexivity.
Qed.

(** A text between two runs of white space, not starting with a backquote,
    is all that [cleanJsonString] returns. *)
Lemma cleanJsonString_padded_core (w1 w2 mid : jsstring) (c d : N) :
  allWhiteSpace w1 = true -> allWhiteSpace w2 = true ->
  isWhiteSpace c = false -> isWhiteSpace d = false -> c <> 96%N ->
  cleanJsonString (Some (w1 ++ (c :: mid ++ [d]) ++ w2)) = c :: mid ++ [d].
Proof.
  intros H1 H2 Hc Hd Hc96.
  rewrite cleanJsonString_nonempty.
  2:{ intros E. apply app_eq_nil in E. destruct E as [_ E].
      discriminate E. }
  rewrite trim_core by assumption.
  assert (Hno : startsWith (c :: mid ++ [d]) fenceJson = false
                /\ startsWith (c :: mid ++ [d]) fence = false).
  { unfold fenceJson, fence. cbn [app startsWith].
    destruct (N.eqb_spec 96 c); [congruence|]. split; reflexivity. }
  destruct Hno as [-> ->].
  rewrite <- (app_nil_r (c :: mid ++ [d])) at 1.
  change (c :: mid ++ [d]) with ([] ++ (c :: mid ++ [d])) at 1.
  rewrite <- app_assoc. apply trim_core; auto.
Qed.

Lemma EmptyAnswer_emptyContent (answer : option jsstring) :
  EmptyAnswer answer ->
  TextService.emptyContent (cleanJsonString answer) = true.
Proof.
  intros [ | s Hs | ws1 ws2 H1 H2 | ws1 ws2 ws3 ws4 opening Ho H1 H2 H3 H4].
  - vm_compute. reflexivity.
  - destruct s as [|c s]; [vm_compute; reflexivity|].
    rewrite cleanJsonString_nonempty by discriminate.
    rewrite (trim_all_ws (c :: s) Hs). vm_compute. reflexivity.
  - assert (E : js "{}" = 123%N :: [] ++ [125%N]) by (vm_compute; reflexivity).
    rewrite E.
    rewrite cleanJsonString_padded_core by (auto; discriminate).
    vm_compute. reflexivity.
  - assert (HP : JSON_parse (js "{}") = Some (JObject []))
      by (vm_compute; reflexivity).
    rewrite (cleanJsonString_fenced (js "{}") ws1 ws2 ws3 ws4 Ho H1 H2 H3 H4
               HP).
    vm_compute. reflexivity.
Qed.

(** X19.  An empty answer is reported as such.  When the model's answer
    has no text, a blank text, or the empty object (bare or fenced, with
    any white space around), [getPhilosophicalQuotes] rejects with the
    error 'API retornou conteúdo vazio.': it neither returns an empty list
    nor fails in [JSON.parse]. *)
Theorem getPhilosophicalQuotes_empty_answer :
  forall (env : Env) (aiInstance : option GoogleGenAI) (theme : jsstring)
         (w : TextService.World) (ai : GoogleGenAI)
         (response : GenerateContentResponse),
    fst (getAiClient env aiInstance) = Fulfilled ai ->
    fst (withRetry (TextService.quotesRequest w theme) 3 2000 start)
      = Fulfilled response ->
    EmptyAnswer (text response) ->
    fst (TextService.getPhilosophicalQuotes env aiInstance theme w)
      = Rejected (Error_ (js "API retornou conteúdo vazio.")).
Proof.
  intros env aiInstance theme w ai response Hai Hresp Hempty.
  unfold TextService.getPhilosophicalQuotes.
  destruct (getAiClient env aiInstance) as [[ai0|e] st]; cbn [fst] in Hai;
    [|discriminate].
  cbn [fst]. rewrite Hresp. cbv zeta.
  rewrite (EmptyAnswer_emptyContent Hempty). reflexivity.
Qed.

Lemma getPhilosophicalQuotes_empty_answer_witness :
  fst (TextService.getPhilosophicalQuotes Samples.configured None
         (js "tempo") TextSamples.emptyWorld)
  = Rejected (Error_ (js "API retornou conteúdo vazio.")).
Proof.
  apply (@getPhilosophicalQuotes_empty_answer Samples.configured None
           (js "tempo") TextSamples.emptyWorld
           {| apiKey := js "AIza-sample-key" |}
           (TextSamples.answering
              (fenceJson ++ [10%N] ++ js "{}" ++ [10%N] ++ fence ++ []))).
  - vm_compute. reflexivity.
  - vm_compute. reflexivity.
  - apply (@EmptyFenced [] [10%N] [10%N] [] fenceJson); auto.
Defined.

Lemma withIds_shape (w : TextService.World) (quotesRaw : list json) :
  forall k : nat,
    map TextService.id (TextService.withIds w k quotesRaw)
      = map (TextService.generateId w) (seq k (List.length quotesRaw))
    /\ map TextService.quote (TextService.withIds w k quotesRaw)
       = map (fun q => getProperty q (js "quote")) quotesRaw
    /\ map TextService.author (TextService.withIds w k quotesRaw)
       = map (fun q => getProperty q (js "author")) quotesRaw
    /\ map TextService.imageUrl (TextService.withIds w k quotesRaw)
       = map (fun _ => Some []) quotesRaw.
Proof.
  induction quotesRaw as [|q rest IH]; intros k.
  - repeat split.
  - destruct (IH (S k)) as (H1 & H2 & H3 & H4).
    cbn [TextService.withIds map List.length seq
         TextService.id TextService.quote TextService.author
         TextService.imageUrl].
    rewrite H1, H2, H3, H4. repeat split.
Qed.

(** X20.  When the model answers with a JSON array, bare or cleaned of its
    fence, [getPhilosophicalQuotes] resolves with one quote per element,
    in the order of the array: its text and author are what the element
    holds under [quote] and [author], its identifier is the one
    [generateId] returned for it, its image is still empty; and the client
    is kept for the calls that follow. *)
Theorem getPhilosophicalQuotes_one_quote_per_element :
  forall (env : Env) (aiInstance : option GoogleGenAI) (theme : jsstring)
         (w : TextService.World) (ai : GoogleGenAI)
         (response : GenerateContentResponse) (quotesRaw : list json),
    fst (getAiClient env aiInstance) = Fulfilled ai ->
    fst (withRetry (TextService.quotesRequest w theme) 3 2000 start)
      = Fulfilled response ->
    JSON_parse (cleanJsonString (text response)) = Some (JArray quotesRaw) ->
    exists fetched : list TextService.FetchedQuote,
      TextService.getPhilosophicalQuotes env aiInstance theme w
        = (Fulfilled fetched, Some ai)
      /\ map TextService.id fetched
         = map (TextService.generateId w) (seq 0 (List.length quotesRaw))
      /\ map TextService.quote fetched
         = map (fun q => getProperty q (js "quote")) quotesRaw
      /\ map TextService.author fetched
         = map (fun q => getProperty q (js "author")) quotesRaw
      /\ map TextService.imageUrl fetched
         = map (fun _ => Some []) quotesRaw.
Proof.
  intros env aiInstance theme w ai response quotesRaw Hai Hresp Hparse.
  exists (TextService.withIds w 0 quotesRaw).
  split; [|apply withIds_shape].
  unfold TextService.getPhilosophicalQuotes.
  destruct (getAiClient env aiInstance) as [[ai0|e] st] eqn:Eai;
    cbn [fst] in Hai; [|discriminate].
  injection Hai as ->.
  destruct (getAiClient_state _ _ Eai) as [-> _].
  rewrite Hresp. cbv zeta.
  assert (Hcontent : TextService.emptyContent
                       (cleanJsonString (text response)) = false).
  { unfold TextService.emptyContent.
    destruct (cleanJsonString (text response)) as [|c s] eqn:E.
    - cbn in Hparse. discriminate.
    - cbn [truthy negb orb].
      destruct (jsstring_eqb (c :: s) (js "{}")) eqn:Eq; [|reflexivity].
      apply jsstring_eqb_eq in Eq. rewrite Eq in Hparse.
      vm_compute in Hparse. discriminate. }
  rewrite Hcontent, Hparse. reflexivity.
Qed.

Lemma getPhilosophicalQuotes_one_quote_per_element_witness :
  exists fetched : list TextService.FetchedQuote,
    TextService.getPhilosophicalQuotes Samples.configured None (js "tempo")
      TextSamples.world
      = (Fulfilled fetched, Some {| apiKey := js "AIza-sample-key" |})
    /\ map TextService.id fetched
       = map (TextService.generateId TextSamples.world)
           (seq 0 (List.length [Samples.quoteValue; Samples.quoteValue]))
    /\ map TextService.quote fetched
       = map (fun q => getProperty q (js "quote"))
           [Samples.quoteValue; Samples.quoteValue]
    /\ map TextService.author fetched
       = map (fun q => getProperty q (js "author"))
           [Samples.quoteValue; Samples.quoteValue]
    /\ map TextService.imageUrl fetched
       = map (fun _ => Some []) [Samples.quoteValue; Samples.quoteValue].
Proof.
  apply (@getPhilosophicalQuotes_one_quote_per_element Samples.configured
           None (js "tempo") TextSamples.world
           {| apiKey := js "AIza-sample-key" |}
           (TextSamples.answering TextSamples.quotesPayload)
           [Samples.quoteValue; Samples.quoteValue]).
  - vm_compute. reflexivity.
  - vm_compute. reflexivity.
  - vm_compute. reflexivity.
Defined.

(** ** The quote of the day and the search, over either copy *)

(** For a value that is not [null] or [undefined] the user is never shown
    an empty error. *)
Lemma handleApiError_nonempty (err : JsError) :
  exists shown : jsstring,
    handleApiError (ErrorObject err) = Some shown /\ shown <> [].
Proof.
  rewrite handleApiError_object. eexists. split; [reflexivity|].
  destruct (categoryOf (errorText err)); vm_compute; discriminate.
Qed.

(** [getPhilosophicalQuotes] rejects with [null] or [undefined] only when
    its request does. *)
Lemma getPhilosophicalQuotes_nullish (env : Env)
  (aiInstance : option GoogleGenAI) (theme : jsstring)
  (w : TextService.World) :
  fst (TextService.getPhilosophicalQuotes env aiInstance theme w)
    = Rejected Nullish ->
  fst (withRetry (TextService.quotesRequest w theme) 3 2000 start)
    = Rejected Nullish.
Proof.
  unfold TextService.getPhilosophicalQuotes.
  destruct (getAiClient env aiInstance) as [[ai|e] st] eqn:Eai; cbn [fst].
  2:{ intros H. exfalso.
      assert (He : e = Error_ (js "API_KEY_MISSING")).
      { apply (@getAiClient_rejects env aiInstance e). rewrite Eai.
        reflexivity. }
      rewrite He in H. discriminate H. }
  destruct (fst (withRetry (TextService.quotesRequest w theme) 3 2000 start))
    as [response|e]; [|intros H; injection H as ->; reflexivity].
  cbv zeta.
  destruct (TextService.emptyContent (cleanJsonString (text response)));
    [discriminate|].
  destruct (JSON_parse (cleanJsonString (text response))) as [v|];
    [|discriminate].
  destruct v; discriminate.
Qed.

Section ImagesSettle.

Variable images :
  option GoogleGenAI -> jsstring -> nat -> Outcome (option jsstring).
Variable toText : option json -> jsstring.

(** Once there is a client, the copy's [generateQuoteImage] resolves with
    a string that is not empty, or rejects with the [TypeError] raised in
    its [catch] block. *)
Hypothesis images_settle :
  forall (ai : GoogleGenAI) (quoteText : jsstring) (k : nat),
    (exists s, images (Some ai) quoteText k = Fulfilled (Some s) /\ s <> [])
    \/ (exists engine' : Engine,
          images (Some ai) quoteText k
          = Rejected (raised engine' (ReadOfNullish (js "message")))).


Lemma withImages_settles (ai : GoogleGenAI)
  (fetched : list TextService.FetchedQuote) :
  forall k : nat,
  (exists resolved,
     AppSearch.withImages images toText (Some ai) k fetched
       = Fulfilled resolved
     /\ Forall hasImage resolved
     /\ map TextService.id resolved = map TextService.id fetched
     /\ map TextService.quote resolved = map TextService.quote fetched
     /\ map TextService.author resolved = map TextService.author fetched)
  \/ (exists engine' : Engine,
        AppSearch.withImages images toText (Some ai) k fetched
        = Rejected (raised engine' (ReadOfNullish (js "message")))).
Proof.
  induction fetched as [|q rest IH]; intros k.
  - left. exists []. repeat split. constructor.
  - cbn [AppSearch.withImages].
    destruct (images_settle ai (toText (TextService.quote q)) k)
      as [(s & Hs & Hne) | (engine' & Hrej)].
    2:{ right. exists engine'. rewrite Hrej. reflexivity. }
    rewrite Hs.
    destruct (IH (S k))
      as [(resolved & Hrun & Hall & Hid & Hq & Ha) | (engine' & Hrej)].
    2:{ right. exists engine'. rewrite Hrej. reflexivity. }
    left. rewrite Hrun. eexists. split; [reflexivity|].
    cbn [map TextService.id TextService.quote TextService.author].
    rewrite Hid, Hq, Ha. repeat split.
    constructor; [|exact Hall].
    exists s. split; [reflexivity | exact Hne].
Qed.

Lemma handleSearch_final (env : Env) (aiInstance : option GoogleGenAI)
  (w : TextService.World) (s : AppSearch.UiState) :
  let final :=
    fst (AppSearch.handleSearch images toText env aiInstance w s) in
  if truthy (trim (AppSearch.searchTerm s)) then
    AppSearch.isLoading final = false
    /\ AppSearch.currentView final = AppSearch.search
    /\ ((AppSearch.error final = None
         /\ AppSearch.quotes final <> []
         /\ Forall hasImage (AppSearch.quotes final))
        \/ (exists shown, AppSearch.error final = Some shown
                          /\ shown <> []
                          /\ AppSearch.quotes final = [])
        \/ (AppSearch.error final = None
            /\ AppSearch.quotes final = []
            /\ fst (withRetry
                      (TextService.quotesRequest w (AppSearch.searchTerm s))
                      3 2000 start) = Rejected Nullish))
  else
    AppSearch.handleSearch images toText env aiInstance w s
    = ({| AppSearch.searchTerm := AppSearch.searchTerm s;
          AppSearch.quotes := AppSearch.quotes s;
          AppSearch.isLoading := AppSearch.isLoading s;
          AppSearch.error :=
            Some (js "Por favor, insira um tema para a busca.");
          AppSearch.currentView := AppSearch.currentView s |},
       aiInstance).
Proof.
  cbv zeta. unfold AppSearch.handleSearch.
  destruct (truthy (trim (AppSearch.searchTerm s))); cbn [negb];
    [|reflexivity].
  pose proof (@getPhilosophicalQuotes_nullish env aiInstance
                (AppSearch.searchTerm s) w) as Hnull.
  destruct (TextService.getPhilosophicalQuotes env aiInstance
              (AppSearch.searchTerm s) w)
    as [[fetched|err] st] eqn:Eget.
  2:{ cbn [fst AppSearch.isLoading AppSearch.currentView AppSearch.error
           AppSearch.quotes].
      split; [reflexivity|]. split; [reflexivity|]. right.
      destruct err as [|e].
      - right. split; [reflexivity|]. split; [reflexivity|].
        apply Hnull. reflexivity.
      - left. destruct (handleApiError_nonempty e) as (shown & Hshown & Hne).
        exists shown. split; [exact Hshown|].
        split; [exact Hne | reflexivity]. }
  clear Hnull.
  destruct fetched as [|q rest].
  { cbn [fst AppSearch.isLoading AppSearch.currentView AppSearch.error
         AppSearch.quotes].
    split; [reflexivity|]. split; [reflexivity|]. right. left.
    eexists. split; [reflexivity|].
    split; [vm_compute; discriminate | reflexivity]. }
  assert (Hst : exists ai, st = Some ai).
  { unfold TextService.getPhilosophicalQuotes in Eget.
    destruct (getAiClient env aiInstance) as [[ai|e] st0] eqn:Eai.
    - destruct (getAiClient_state _ _ Eai) as [-> _].
      injection Eget as _ <-. eauto.
    - discriminate. }
  destruct Hst as (ai & ->).
  destruct (withImages_settles ai (q :: rest) 0)
    as [(resolved & Hrun & Hall & Hid & _) | (engine' & Hrej)].
  - rewrite Hrun. cbn [fst AppSearch.isLoading AppSearch.currentView
                         AppSearch.error AppSearch.quotes].
    split; [reflexivity|]. split; [reflexivity|]. left.
    split; [reflexivity|]. split; [|exact Hall].
    intros ->. discriminate Hid.
  - rewrite Hrej. cbn [fst AppSearch.isLoading AppSearch.currentView
                         AppSearch.error AppSearch.quotes].
    split; [reflexivity|]. split; [reflexivity|]. right. left.
    destruct (handleApiError_nonempty
                (raised engine' (ReadOfNullish (js "message"))))
      as (shown & Hshown & Hne).
    exists shown. split; [exact Hshown|].
    split; [exact Hne | reflexivity].
Qed.

End ImagesSettle.

Lemma pexelsImages_settle (env : Env) (worlds : nat -> World) :
  (forall k, isUnitDouble (random (worlds k))) ->
  forall (ai : GoogleGenAI) (quoteText : jsstring) (k : nat),
    (exists s, pexelsImages env worlds (Some ai) quoteText k
               = Fulfilled (Some s) /\ s <> [])
    \/ (exists engine' : Engine,
          pexelsImages env worlds (Some ai) quoteText k
          = Rejected (raised engine' (ReadOfNullish (js "message")))).
Proof.
  intros Hr ai quoteText k. unfold pexelsImages.
  destruct (@PexelsChain_generateQuoteImage_outcome env (Some ai) quoteText
              (worlds k) ai eq_refl (Hr k)) as [H | [_ H]].
  - left. exact H.
  - right. exists (engine (worlds k)). exact H.
Qed.

Lemma imagenImages_settle (env : Env) (worlds : nat -> ImagenOnly.World) :
  (forall k, isUnitDouble (ImagenOnly.random (worlds k))) ->
  forall (ai : GoogleGenAI) (quoteText : jsstring) (k : nat),
    (exists s, imagenImages env worlds (Some ai) quoteText k
               = Fulfilled (Some s) /\ s <> [])
    \/ (exists engine' : Engine,
          imagenImages env worlds (Some ai) quoteText k
          = Rejected (raised engine' (ReadOfNullish (js "message")))).
Proof.
  intros Hr ai quoteText k. unfold imagenImages.
  pose proof (@ImagenOnly_generateQuoteImage_outcome env (Some ai) quoteText
                (worlds k) (Hr k)) as H.
  assert (Hres : (exists image : jsstring,
                    ImagenOnly.generateQuoteImage env (Some ai) quoteText
                      (worlds k) = Fulfilled (Some image)
                    /\ ((exists bytes,
                           image = js "data:image/jpeg;base64," ++ bytes
                           /\ bytes <> [])
                        \/ In image FALLBACK_IMAGES)) ->
                 exists s, ImagenOnly.generateQuoteImage env (Some ai)
                             quoteText (worlds k) = Fulfilled (Some s)
                           /\ s <> []).
  { intros (image & Himage & Hkind). exists image. split; [exact Himage|].
    destruct Hkind as [(bytes & -> & _) | Hin].
    - vm_compute (js _). discriminate.
    - exact (FALLBACK_IMAGES_nonempty Hin). }
  destruct (ImagenOnly.tryBlock env (Some ai) quoteText (worlds k))
    as [image|[|e]].
  - left. exact (Hres H).
  - right. exists (ImagenOnly.engine (worlds k)). exact H.
  - left. exact (Hres H).
Qed.


(** X22.  How a search ends, in either copy of the service.  With a blank
    search term [handleSearch] only sets the error that asks for a theme:
    it makes no request and leaves the rest of the state and the client as
    they were.  Otherwise, when it has run to its end, the loading flag is
    off, the view is the search view, and the state holds one of: no error
    and a list of quotes that is not empty and whose images are all
    strings that are not empty; an error message that is not empty and no
    quote; or no error and no quote, which happens only when the request
    for quotes rejected with [null] or [undefined], so that
    [handleApiError] itself threw inside the [catch] block. *)
Theorem handleSearch_final_state :
  forall (env : Env) (aiInstance : option GoogleGenAI)
         (w : TextService.World) (s : AppSearch.UiState)
         (toText : option json -> jsstring)
         (worlds : nat -> World) (worlds' : nat -> ImagenOnly.World)
         (images : option GoogleGenAI -> jsstring -> nat
                   -> Outcome (option jsstring)),
    (forall k, isUnitDouble (random (worlds k))) ->
    (forall k, isUnitDouble (ImagenOnly.random (worlds' k))) ->
    images = pexelsImages env worlds \/ images = imagenImages env worlds' ->
    let final :=
      fst (AppSearch.handleSearch images toText env aiInstance w s) in
    if truthy (trim (AppSearch.searchTerm s)) then
      AppSearch.isLoading final = false
      /\ AppSearch.currentView final = AppSearch.search
      /\ ((AppSearch.error final = None
           /\ AppSearch.quotes final <> []
           /\ Forall hasImage (AppSearch.quotes final))
          \/ (exists shown, AppSearch.error final = Some shown
                            /\ shown <> []
                            /\ AppSearch.quotes final = [])
          \/ (AppSearch.error final = None
              /\ AppSearch.quotes final = []
              /\ fst (withRetry
                        (TextService.quotesRequest w
                           (AppSearch.searchTerm s))
                        3 2000 start) = Rejected Nullish))
    else
      AppSearch.handleSearch images toText env aiInstance w s
      = ({| AppSearch.searchTerm := AppSearch.searchTerm s;
            AppSearch.quotes := AppSearch.quotes s;
            AppSearch.isLoading := AppSearch.isLoading s;
            AppSearch.error :=
              Some (js "Por favor, insira um tema para a busca.");
            AppSearch.currentView := AppSearch.currentView s |},
         aiInstance).
Proof.
  intros env aiInstance w s toText worlds worlds' images Hr Hr' [-> | ->].
  - apply handleSearch_final. apply pexelsImages_settle. exact Hr.
  - apply handleSearch_final. apply imagenImages_settle. exact Hr'.
Qed.


Lemma handleSearch_final_state_witness :
  let final :=
    fst (AppSearch.handleSearch
           (imagenImages Samples.configured
              (fun _ => Samples.imagenOverloaded))
           TextSamples.textOf Samples.configured None
           TextSamples.rejectingWithNull
           (TextSamples.idle (js "tempo"))) in
  if truthy (trim (AppSearch.searchTerm (TextSamples.idle (js "tempo"))))
  then
    AppSearch.isLoading final = false
    /\ AppSearch.currentView final = AppSearch.search
    /\ ((AppSearch.error final = None
         /\ AppSearch.quotes final <> []
         /\ Forall hasImage (AppSearch.quotes final))
        \/ (exists shown, AppSearch.error final = Some shown
                          /\ shown <> []
                          /\ AppSearch.quotes final = [])
        \/ (AppSearch.error final = None
            /\ AppSearch.quotes final = []
            /\ fst (withRetry
                      (TextService.quotesRequest
                         TextSamples.rejectingWithNull
                         (AppSearch.searchTerm
                            (TextSamples.idle (js "tempo"))))
                      3 2000 start) = Rejected Nullish))
  else
    AppSearch.handleSearch
      (imagenImages Samples.configured (fun _ => Samples.imagenOverloaded))
      TextSamples.textOf Samples.configured None
      TextSamples.rejectingWithNull
      (TextSamples.idle (js "tempo"))
    = ({| AppSearch.searchTerm :=
            AppSearch.searchTerm (TextSamples.idle (js "tempo"));
          AppSearch.quotes :=
            AppSearch.quotes (TextSamples.idle (js "tempo"));
          AppSearch.isLoading :=
            AppSearch.isLoading (TextSamples.idle (js "tempo"));
          AppSearch.error :=
            Some (js "Por favor, insira um tema para a busca.");
          AppSearch.currentView :=
            AppSearch.currentView (TextSamples.idle (js "tempo")) |},
       None).
Proof.
  apply (@handleSearch_final_state Samples.configured None
           TextSamples.rejectingWithNull
           (TextSamples.idle (js "tempo")) TextSamples.textOf
           (fun _ => Samples.everythingFails)
           (fun _ => Samples.imagenOverloaded)
           (imagenImages Samples.configured
              (fun _ => Samples.imagenOverloaded))).
  - intros k. unfold isUnitDouble. cbn. lia.
  - intros k. unfold isUnitDouble. cbn. lia.
  - right. reflexivity.
Defined.

(** ** The name of the downloaded file *)

Lemma digitsFrom_digits (fuel : nat) :
  forall (n : N) (acc : jsstring),
    Forall (fun c => QuoteCard.isFileNameChar c = true) acc ->
    Forall (fun c => QuoteCard.isFileNameChar c = true)
      (QuoteCard.digitsFrom fuel n acc).
Proof.
  induction fuel as [|fuel IH]; intros n acc Hacc; [exact Hacc|].
  cbn [QuoteCard.digitsFrom].
  assert (Hd : QuoteCard.isFileNameChar (48 + n mod 10) = true).
  { assert (Hm : (n mod 10 < 10)%N) by (apply N.mod_upper_bound; lia).
    set (m := (n mod 10)%N) in *. clearbody m.
    unfold QuoteCard.isFileNameChar. cmp_cases; reflexivity. }
  destruct (n <? 10)%N; [constructor; assumption|].
  apply IH. constructor; assumption.
Qed.

Lemma safeAuthor_chars (author : jsstring) :
  Forall (fun c => QuoteCard.isFileNameChar c = true)
    (QuoteCard.safeAuthor author).
Proof.
  unfold QuoteCard.safeAuthor, QuoteCard.toLowerCaseAscii,
    QuoteCard.replaceUnsafe.
  rewrite map_map. apply Forall_forall. intros c Hc.
  apply in_map_iff in Hc. destruct Hc as (x & <- & _).
  cbv beta. destruct (QuoteCard.isAsciiLetterOrDigit x) eqn:E.
  - assert (Hx : (97 <= x <= 122 \/ 65 <= x <= 90 \/ 48 <= x <= 57)%N).
    { unfold QuoteCard.isAsciiLetterOrDigit in E.
      rewrite !orb_true_iff, !andb_true_iff, !N.leb_le in E. lia. }
    destruct ((65 <=? x) && (x <=? 90))%N eqn:U.
    + rewrite andb_true_iff, !N.leb_le in U.
      unfold QuoteCard.isFileNameChar. cmp_cases; reflexivity.
    + rewrite andb_false_iff, !N.leb_gt in U.
      unfold QuoteCard.isFileNameChar. cmp_cases; reflexivity.
  - vm_compute. reflexivity.
Qed.

(** X23.  The name of the downloaded file is a plain file name whatever
    the author is, for any value of [Date.now()] that prints as plain
    digits: the author's part has one character for each code unit of the
    author, and the whole name is made of lower-case ASCII letters, digits,
    underscores, hyphens and full stops only. *)
Theorem downloadName_is_plain :
  forall (author : jsstring) (now : N),
    (now < 10 ^ 21)%N ->
    List.length (QuoteCard.safeAuthor author) = List.length author
    /\ Forall (fun c => QuoteCard.isFileNameChar c = true)
         (QuoteCard.downloadName author now).
Proof.
  intros author now _. split.
  - unfold QuoteCard.safeAuthor, QuoteCard.toLowerCaseAscii,
      QuoteCard.replaceUnsafe.
    rewrite !length_map. reflexivity.
  - unfold QuoteCard.downloadName.
    repeat (apply Forall_app; split).
    + vm_compute. repeat constructor.
    + apply safeAuthor_chars.
    + vm_compute. repeat constructor.
    + apply digitsFrom_digits. constructor.
    + vm_compute. repeat constructor.
Qed.

Lemma downloadName_is_plain_witness :
  List.length (QuoteCard.safeAuthor (js "Sêneca, o Jovem"))
    = List.length (js "Sêneca, o Jovem")
  /\ Forall (fun c => QuoteCard.isFileNameChar c = true)
       (QuoteCard.downloadName (js "Sêneca, o Jovem") 1730480000123).
Proof.
  apply (@downloadName_is_plain (js "Sêneca, o Jovem") 1730480000123).
  vm_compute. reflexivity.
Defined.

(** X24.  An image that the AI steps produced is shown as it is: for the
    data URI that the [try] block of the Pexels copy returns,
    [processImage] on a mounted card sets it as the image source and marks
    the image ready, whatever a fetch of it would have given: the
    conversion of external images is not used. *)
Theorem processImage_uses_ai_image_directly :
  forall (quoteText : jsstring) (w : World) (dataUri : jsstring)
         (conversion : Outcome (option jsstring)),
    fst (generateWithAi quoteText w) = Fulfilled dataUri ->
    QuoteCard.processImage dataUri true conversion = Some (Some dataUri).
Proof.
  intros quoteText w dataUri conversion H.
  destruct (generateWithAi_data_uri _ _ H) as (bytes & -> & _).
  unfold QuoteCard.processImage.
  assert (E : js "data:image/jpeg;base64,"
              = js "data:" ++ js "image/jpeg;base64,")
    by (vm_compute; reflexivity).
  rewrite E, <- app_assoc, startsWith_app.
  assert (E' : js "data:" = [100; 97; 116; 97; 58]%N)
    by (vm_compute; reflexivity).
  rewrite E'. reflexivity.
Qed.

Lemma processImage_uses_ai_image_directly_witness :
  QuoteCard.processImage (js "data:image/jpeg;base64,/9j/4AAQ") true
    (Rejected billingError)
  = Some (Some (js "data:image/jpeg;base64,/9j/4AAQ")).
Proof.
  apply (@processImage_uses_ai_image_directly (js "Conhece-te a ti mesmo.")
           TextSamples.aiImageMade (js "data:image/jpeg;base64,/9j/4AAQ")
           (Rejected billingError)).
  vm_compute. reflexivity.
Defined.
